(** * ESPN sports tracker: the resolution-and-caching layer of [app/main.py]

    A shallow embedding of the FastAPI handlers of [app/main.py] and of the
    in-memory cache in front of the ESPN fetch, followed by the properties
    of the specification that concern them.

    Modelling conventions.
    - The parsed [config.yaml] is a read-only record, whose leagues and team
      entries are mappings; a field that a handler
      reads with [dict.get] is an [option] ([None] is Python's [None], which
      is also what [get] answers for an absent key).
    - The module-global dictionary [cache] is a [gmap] from the key string to
      the pair (timestamp, payload).
    - [time.time()] and [requests.get] are the two contacts with the outside.
      The n-th clock reading and the answer to the n-th request are given by
      two oracles; the state counts the readings and logs the requested URLs,
      so that "performs no fetch" and "fetches exactly once" are statements
      about the log.  Clock readings are rationals (the rounding of the
      floating-point subtraction [now - ts] is not modelled).
    - The libraries can raise exceptions of their own: an exception of
      [requests.get] or [resp.json()] that is no [requests.RequestException]
      is an answer of the request oracle, and whether FastAPI's
      [JSONResponse] renders a list of rows or raises is given by a third
      oracle.
    - A handler is a computation in a state-and-exception monad: it ends by
      returning a value or by raising a Python exception. *)

From Stdlib Require Import QArith ZArith String Ascii List DecimalString DecimalZ Lqa.
From stdpp Require Import gmap strings.

Local Open Scope string_scope.

(** ** JSON payloads and the Python operations the handlers apply to them *)

(** The floats that [json.loads] builds from the literals NaN, Infinity and
    -Infinity. *)
Inductive nonfinite : Type := NaN | Infinity | NegInfinity.

#[local] Unset Elimination Schemes.
Inductive value : Type :=
| JNull
| JBool (b : bool)
| JNum (q : Q)
| JNonFinite (x : nonfinite)
| JStr (s : string)
| JArr (items : list value)
| JObj (fields : list (string * value)).
#[local] Set Elimination Schemes.

(** Lookup in a Python [dict] with string keys, kept in insertion order. *)
Fixpoint assoc (k : string) (fields : list (string * value)) : option value :=
  match fields with
  | [] => None
  | (k', v) :: rest => if String.eqb k k' then Some v else assoc k rest
  end.

(** Python exceptions that the handlers can raise.  The first five are
    raised by the code of the handlers.  [Other] is an exception raised
    inside a library call ([requests.get], [resp.json()], [JSONResponse]),
    named by its class (RecursionError, ValueError, UnicodeEncodeError). *)
Inductive exn : Type :=
| HTTPException (status_code : Z) (detail : string)
| AttributeError
| TypeError
| KeyError
| IndexError
| Other (class_name : string).

Inductive outcome (A : Type) : Type :=
| Return (a : A)
| Raise (e : exn).
Arguments Return {A} a.
Arguments Raise {A} e.

(** [v.get(k, dflt)]: only a [dict] has a [get] method. *)
Definition py_get (v : value) (k : string) (dflt : value) : outcome value :=
  match v with
  | JObj fields => Return (match assoc k fields with Some x => x | None => dflt end)
  | _ => Raise AttributeError
  end.

(** Python truthiness of a JSON value ([if logos], [not x]). *)
Definition truthy (v : value) : bool :=
  match v with
  | JNull => false
  | JBool b => b
  | JNum q => negb (Qeq_bool q 0)
  | JNonFinite _ => true
  | JStr s => negb (String.eqb s "")
  | JArr items => match items with [] => false | _ => true end
  | JObj fields => match fields with [] => false | _ => true end
  end.

(** [v[0]]: first element of a list, first character of a string; a [dict]
    of JSON has string keys only, so the integer key 0 is never found; the
    other values are not subscriptable. *)
Definition py_index0 (v : value) : outcome value :=
  match v with
  | JArr (x :: _) => Return x
  | JArr [] => Raise IndexError
  | JStr (String c _) => Return (JStr (String c ""))
  | JStr "" => Raise IndexError
  | JObj _ => Raise KeyError
  | _ => Raise TypeError
  end.

(** ** Scalars of the configuration and their formatting in f-strings *)

(** Truthiness of a string-or-None and of an integer-or-None. *)
Definition truthy_str (o : option string) : bool :=
  match o with
  | Some s => negb (String.eqb s "")
  | None => false
  end.

Definition truthy_int (o : option Z) : bool :=
  match o with
  | Some z => negb (Z.eqb z 0)
  | None => false
  end.

(** [a or b]. *)
Definition py_or (a b : option string) : option string :=
  if truthy_str a then a else b.

(** [str(x)] as an f-string placeholder applies it. *)
Definition fmt_str (o : option string) : string :=
  match o with
  | Some s => s
  | None => "None"
  end.

Definition fmt_int (o : option Z) : string :=
  match o with
  | Some z => NilZero.string_of_int (Z.to_int z)
  | None => "None"
  end.

Definition json_of_str (o : option string) : value :=
  match o with
  | Some s => JStr s
  | None => JNull
  end.

(** ** The static configuration *)

(** An entry of [config["leagues"]]. *)
Record league_info : Type := {
  l_league : option string;
  l_sport_path : option string;
  l_sport : option string
}.

(** A value of [config["teams"]]. *)
Record team_info : Type := {
  t_name : option string;
  t_league : option string;
  t_espn_slug : option string;
  t_espn_id : option Z
}.

(** [leagues] is [config.get("leagues", [])]; [teams] is
    [config.get("teams", {}).items()], in insertion order. *)
Record config_table : Type := {
  leagues : list league_info;
  teams : list (string * team_info)
}.

(** ** Program state and the monad of handlers *)

Definition CACHE_EXPIRATION : Q := 60 * 60.

Record world : Type := {
  cache : gmap string (Q * value);
  clock_reads : nat;
  requests : list string
}.

Definition M (A : Type) : Type := world -> outcome A * world.

#[global] Instance M_ret : MRet M := fun A a w => (Return a, w).

#[global] Instance M_bind : MBind M := fun A B f m w =>
  match m w with
  | (Return a, w') => f a w'
  | (Raise e, w') => (Raise e, w')
  end.

Definition raise {A : Type} (e : exn) : M A := fun w => (Raise e, w).

(** [try: body except Exception: handler]. *)
Definition try_except {A : Type} (body : M A) (handler : M A) : M A := fun w =>
  match body w with
  | (Return a, w') => (Return a, w')
  | (Raise _, w') => handler w'
  end.

(** Lifting a pure Python expression that may raise. *)
Definition lift {A : Type} (o : outcome A) : M A := fun w => (o, w).

(** Outcome of the three statements of the [try] block of
    [fetch_team_data] for one request: the decoded JSON body; or the message
    of the [requests.RequestException] raised by [requests.get], by
    [raise_for_status] or by [resp.json()]; or the class of an exception of
    these calls that is no [RequestException] (the RecursionError of
    [resp.json()] on a deeply nested body), which the [except] clause does
    not catch. *)
Inductive response : Type :=
| Body (json : value)
| RequestException (msg : string)
| LibraryError (class_name : string).

(** [JSONResponse(content=results)]: FastAPI renders the content when the
    response is built, and raises when the content cannot be rendered
    (ValueError for a float that is not finite, UnicodeEncodeError for an
    unpaired surrogate).  [renders] answers [None] when the content renders
    and the class of the exception otherwise. *)
Definition JSONResponse (renders : list value -> option string) (content : list value)
    : outcome (list value) :=
  match renders content with
  | None => Return content
  | Some class_name => Raise (Other class_name)
  end.

Section Handlers.

(** The n-th reading of [time.time()]. *)
Variable clock : nat -> Q.
(** The answer to the n-th request, given its URL. *)
Variable upstream : nat -> string -> response.
(** The parsed [config.yaml]. *)
Variable config : config_table.
(** Whether [JSONResponse] renders a list of rows. *)
Variable renders : list value -> option string.

Definition time_time : M Q := fun w =>
  (Return (clock (clock_reads w)),
   {| cache := cache w; clock_reads := S (clock_reads w); requests := requests w |}).

Definition requests_get (url : string) : M response := fun w =>
  (Return (upstream (length (requests w)) url),
   {| cache := cache w; clock_reads := clock_reads w; requests := (requests w ++ [url])%list |}).

Definition cache_lookup (key : string) : M (option (Q * value)) := fun w =>
  (Return (cache w !! key), w).

Definition cache_store (key : string) (entry : Q * value) : M unit := fun w =>
  (Return tt,
   {| cache := <[key := entry]> (cache w); clock_reads := clock_reads w; requests := requests w |}).

Definition fetch_url (sport_slug league_slug : option string) (team_id : option Z) : string :=
  "https://site.api.espn.com/apis/site/v2/sports/" +:+ fmt_str sport_slug +:+ "/"
    +:+ fmt_str league_slug +:+ "/teams/" +:+ fmt_int team_id.

Definition fetch_team_data (sport_slug league_slug : option string) (team_id : option Z) : M value :=
  resp ← requests_get (fetch_url sport_slug league_slug team_id);
  match resp with
  | Body json => mret json
  | RequestException e => raise (HTTPException 500 ("Error fetching ESPN data: " +:+ e))
  | LibraryError class_name => raise (Other class_name)
  end.

Definition cache_key (league_slug team_slug : option string) : string :=
  fmt_str league_slug +:+ ":" +:+ fmt_str team_slug.

(** [now - ts < CACHE_EXPIRATION] *)
Definition fresh (now ts : Q) : bool :=
  negb (Qle_bool CACHE_EXPIRATION (now - ts)).

Definition get_cached_team_data (sport_slug league_slug team_slug : option string)
    (team_id : option Z) : M value :=
  let key := cache_key league_slug team_slug in
  now ← time_time;
  let refresh : M value :=
    data ← fetch_team_data sport_slug league_slug team_id;
    _ ← cache_store key (now, data);
    mret data in
  entry ← cache_lookup key;
  match entry with
  | Some (ts, data) => if fresh now ts then mret data else refresh
  | None => refresh
  end.

Fixpoint find_sport_slug_in (ls : list league_info) (league_slug : option string) : option string :=
  match ls with
  | [] => None
  | league :: rest =>
      if bool_decide (l_league league = league_slug)
      then py_or (l_sport_path league) (l_sport league)
      else find_sport_slug_in rest league_slug
  end.

Definition find_sport_slug (league_slug : option string) : option string :=
  find_sport_slug_in (leagues config) league_slug.

Fixpoint api_team_loop (items : list (string * team_info)) (team_slug league_slug : string) : M value :=
  match items with
  | [] => raise (HTTPException 404 "Team or league not found in config")
  | (team_key, info) :: rest =>
      if bool_decide (t_espn_slug info = Some team_slug) && bool_decide (t_league info = Some league_slug)
      then
        let team_id := t_espn_id info in
        if negb (truthy_int team_id)
        then raise (HTTPException 404 "Team ESPN ID not found in config")
        else
          let sport_slug := find_sport_slug (Some league_slug) in
          if negb (truthy_str sport_slug)
          then raise (HTTPException 404 "Sport slug not found in config")
          else get_cached_team_data sport_slug (Some league_slug) (Some team_slug) team_id
      else api_team_loop rest team_slug league_slug
  end.

(** GET /api/espn/team/{team_slug}/{league_slug} *)
Definition api_team (team_slug league_slug : string) : M value :=
  api_team_loop (teams config) team_slug league_slug.

Fixpoint api_team_no_league_loop (items : list (string * team_info)) (team_slug : string) : M value :=
  match items with
  | [] => raise (HTTPException 404 "Team not found in config")
  | (team_key, info) :: rest =>
      if bool_decide (t_espn_slug info = Some team_slug)
      then
        let team_id := t_espn_id info in
        let league_slug := t_league info in
        if negb (truthy_int team_id) || negb (truthy_str league_slug)
        then raise (HTTPException 404 "Team ESPN ID or league not found in config")
        else
          let sport_slug := find_sport_slug league_slug in
          if negb (truthy_str sport_slug)
          then raise (HTTPException 404 "Sport slug not found in config")
          else get_cached_team_data sport_slug league_slug (Some team_slug) team_id
      else api_team_no_league_loop rest team_slug
  end.

(** GET /api/espn/team/{team_slug} *)
Definition api_team_no_league (team_slug : string) : M value :=
  api_team_no_league_loop (teams config) team_slug.

(** The last two statements of [api_fixtures]: the fixtures are read from
    the payload and wrapped. *)
Definition project_fixtures (data : value) : outcome value :=
  match py_get data "team" (JObj []) with
  | Raise e => Raise e
  | Return team =>
      match py_get team "nextEvent" (JArr []) with
      | Raise e => Raise e
      | Return fixtures => Return (JObj [("fixtures", fixtures)])
      end
  end.

Fixpoint api_fixtures_loop (items : list (string * team_info)) (team_slug league_slug : string) : M value :=
  match items with
  | [] => raise (HTTPException 404 "Team or league not found in config")
  | (team_key, info) :: rest =>
      if bool_decide (t_espn_slug info = Some team_slug) && bool_decide (t_league info = Some league_slug)
      then
        let team_id := t_espn_id info in
        if negb (truthy_int team_id)
        then raise (HTTPException 404 "Team ESPN ID not found in config")
        else
          let sport_slug := find_sport_slug (Some league_slug) in
          if negb (truthy_str sport_slug)
          then raise (HTTPException 404 "Sport slug not found in config")
          else
            data ← get_cached_team_data sport_slug (Some league_slug) (Some team_slug) team_id;
            lift (project_fixtures data)
      else api_fixtures_loop rest team_slug league_slug
  end.

(** GET /api/espn/fixtures/{team_slug}/{league_slug} *)
Definition api_fixtures (team_slug league_slug : string) : M value :=
  api_fixtures_loop (teams config) team_slug league_slug.

(** The dictionary appended to [results] for one team. *)
Definition summary_row (info : team_info) (logo_url : value) : value :=
  JObj [("name", json_of_str (t_name info));
        ("league", json_of_str (t_league info));
        ("espn_slug", json_of_str (t_espn_slug info));
        ("logo", logo_url)].

(** The part of the [try] block of [get_all_teams] that follows the call of
    [get_cached_team_data]: the logo is read from the payload and the row is
    built. *)
Definition project_row (info : team_info) (team_data : value) : outcome value :=
  match py_get team_data "team" (JObj []) with
  | Raise e => Raise e
  | Return team =>
      match py_get team "logos" (JArr []) with
      | Raise e => Raise e
      | Return logos =>
          if truthy logos
          then
            match py_index0 logos with
            | Raise e => Raise e
            | Return first =>
                match py_get first "href" JNull with
                | Raise e => Raise e
                | Return logo_url => Return (summary_row info logo_url)
                end
            end
          else Return (summary_row info JNull)
      end
  end.

(** The [try] block of [get_all_teams] for one team: [results] extended by
    this team's row. *)
Definition team_row (info : team_info) (sport_slug : option string) (results : list value)
    : M (list value) :=
  team_data ← get_cached_team_data sport_slug (t_league info) (t_espn_slug info) (t_espn_id info);
  row ← lift (project_row info team_data);
  mret (results ++ [row])%list.

Fixpoint get_all_teams_loop (items : list (string * team_info)) (results : list value)
    : M (list value) :=
  match items with
  | [] => mret results
  | (team_key, info) :: rest =>
      let sport_slug := find_sport_slug (t_league info) in
      if negb (truthy_str sport_slug)
      then get_all_teams_loop rest results
      else
        results' ← try_except (team_row info sport_slug results) (mret results);
        get_all_teams_loop rest results'
  end.

(** GET /api/teams; the result is the content of the [JSONResponse]. *)
Definition get_all_teams : M (list value) :=
  results ← get_all_teams_loop (teams config) [];
  lift (JSONResponse renders results).

End Handlers.

(** ** Vocabulary of the specification *)

(** The state after one reading of the clock and nothing else. *)
Definition tick (w : world) : world :=
  {| cache := cache w; clock_reads := S (clock_reads w); requests := requests w |}.

(** The key has no entry, or its entry is at least [CACHE_EXPIRATION] old. *)
Definition stale_or_absent (w : world) (key : string) (now : Q) : Prop :=
  cache w !! key = None \/
  exists ts data, cache w !! key = Some (ts, data) /\ (CACHE_EXPIRATION <= now - ts)%Q.

(** During the step from [w] to [w'] exactly one request was sent, and the
    server answered it with a failure. *)
Definition upstream_failure (upstream : nat -> string -> response) (w w' : world) : Prop :=
  exists url e,
    requests w' = (requests w ++ [url])%list /\
    upstream (length (requests w)) url = RequestException e.

(** During the step from [w] to [w'] exactly one request was sent, and a
    library call of the fetch raised an exception of the class [class_name]
    that is no [RequestException]. *)
Definition library_failure (upstream : nat -> string -> response) (class_name : string)
    (w w' : world) : Prop :=
  exists url,
    requests w' = (requests w ++ [url])%list /\
    upstream (length (requests w)) url = LibraryError class_name.

Fixpoint no_colon (s : string) : bool :=
  match s with
  | EmptyString => true
  | String c rest => negb (Ascii.eqb c ":") && no_colon rest
  end.

(** The tests by which the handlers select a team. *)
Definition matches_slug_league (team_slug league_slug : string) (item : string * team_info) : bool :=
  bool_decide (t_espn_slug item.2 = Some team_slug) && bool_decide (t_league item.2 = Some league_slug).

Definition matches_slug (team_slug : string) (item : string * team_info) : bool :=
  bool_decide (t_espn_slug item.2 = Some team_slug).

(** Resolution against the static configuration fails: no team matches, or
    the provider id of the first match is absent or zero, or the sport path
    of the league is not resolvable. *)
Definition config_failure (config : config_table) (team_slug league_slug : string) : Prop :=
  match List.find (matches_slug_league team_slug league_slug) (teams config) with
  | None => True
  | Some (_, info) =>
      t_espn_id info = None \/ t_espn_id info = Some 0%Z \/
      truthy_str (find_sport_slug config (Some league_slug)) = false
  end.

(** The same for the endpoint without league, where the league is the one of
    the first match and must be present too. *)
Definition config_failure_no_league (config : config_table) (team_slug : string) : Prop :=
  match List.find (matches_slug team_slug) (teams config) with
  | None => True
  | Some (_, info) =>
      t_espn_id info = None \/ t_espn_id info = Some 0%Z \/
      truthy_str (t_league info) = false \/
      truthy_str (find_sport_slug config (t_league info)) = false
  end.

(** The bulk listing as a fold of per-team attempts (section 9 of the
    specification): an attempt yields the team's row, or nothing when any
    step of its resolution fails. *)
Definition attempt (clock : nat -> Q) (upstream : nat -> string -> response)
    (config : config_table) (info : team_info) (w : world) : option value * world :=
  let sport_slug := find_sport_slug config (t_league info) in
  if truthy_str sport_slug
  then
    match get_cached_team_data clock upstream sport_slug
            (t_league info) (t_espn_slug info) (t_espn_id info) w with
    | (Return payload, w') =>
        (match project_row info payload with Return row => Some row | Raise _ => None end, w')
    | (Raise _, w') => (None, w')
    end
  else (None, w).

Fixpoint listing (clock : nat -> Q) (upstream : nat -> string -> response)
    (config : config_table) (items : list (string * team_info)) (w : world)
    : list value * world :=
  match items with
  | [] => ([], w)
  | (_, info) :: rest =>
      let '(o, w1) := attempt clock upstream config info w in
      let '(rows, w2) := listing clock upstream config rest w1 in
      (match o with Some row => row :: rows | None => rows end, w2)
  end.

(** Every team of [items], processed in order from [w], yields a row. *)
Fixpoint all_succeed (clock : nat -> Q) (upstream : nat -> string -> response)
    (config : config_table) (items : list (string * team_info)) (w : world) : Prop :=
  match items with
  | [] => True
  | (_, info) :: rest =>
      is_Some (attempt clock upstream config info w).1 /\
      all_succeed clock upstream config rest (attempt clock upstream config info w).2
  end.

(** The state in which a call that had to fetch leaves the world: the
    request is logged, and the entry, if any, is stored under the key. *)
Definition refreshed (w : world) (key url : string) (entry : option (Q * value)) : world :=
  {| cache := match entry with Some e => <[key := e]> (cache w) | None => cache w end;
     clock_reads := S (clock_reads w);
     requests := (requests w ++ [url])%list |}.

(** The discipline of error statuses of a handler, [cf] being the failure of
    its resolution against the configuration: status 404 exactly when [cf],
    and then the state is untouched; status 500 exactly when a request was
    sent and failed with a [RequestException]; no other status; and an
    exception of a library call that is no [RequestException] leaves the
    handler as it is, without a status, exactly when the fetch raised it. *)
Definition error_statuses (upstream : nat -> string -> response) (handler : M value) (cf : Prop)
    : Prop :=
  forall w,
    ((exists d, (handler w).1 = Raise (HTTPException 404 d)) <-> cf) /\
    ((exists d, (handler w).1 = Raise (HTTPException 404 d)) -> (handler w).2 = w) /\
    ((exists d, (handler w).1 = Raise (HTTPException 500 d)) <->
       upstream_failure upstream w (handler w).2) /\
    (forall st d, (handler w).1 = Raise (HTTPException st d) -> st = 404%Z \/ st = 500%Z) /\
    (forall class_name,
        (handler w).1 = Raise (Other class_name) <->
        library_failure upstream class_name w (handler w).2).

(** ** Concrete configurations, clocks and servers *)

Definition ex_payload (logo : string) : value :=
  JObj [("team", JObj [("logos", JArr [JObj [("href", JStr logo)]]);
                       ("nextEvent", JArr [JObj [("id", JStr "401")]])])].

Definition ex_leagues : list league_info :=
  [ {| l_league := Some "eng.1"; l_sport_path := Some "soccer"; l_sport := None |};
    {| l_league := Some "nfl"; l_sport_path := None; l_sport := Some "football" |} ].

Definition arsenal : team_info :=
  {| t_name := Some "Arsenal"; t_league := Some "eng.1";
     t_espn_slug := Some "ars"; t_espn_id := Some 359%Z |}.

Definition patriots : team_info :=
  {| t_name := Some "Patriots"; t_league := Some "nfl";
     t_espn_slug := Some "ne"; t_espn_id := Some 17%Z |}.

(** Three teams; the second has no provider id and a key of its own. *)
Definition cfg_three : config_table :=
  {| leagues := ex_leagues;
     teams := [ ("arsenal", arsenal);
                ("chelsea", {| t_name := Some "Chelsea"; t_league := Some "eng.1";
                               t_espn_slug := Some "che"; t_espn_id := None |});
                ("patriots", patriots) ] |}.

(** Three teams; the second has no provider id and the league and slug of
    the first. *)
Definition cfg_duplicate : config_table :=
  {| leagues := ex_leagues;
     teams := [ ("arsenal", arsenal);
                ("arsenal_women", {| t_name := Some "Arsenal Women"; t_league := Some "eng.1";
                                     t_espn_slug := Some "ars"; t_espn_id := None |});
                ("patriots", patriots) ] |}.

(** The first entry for (ars, eng.1) has the id 0, the second a valid one. *)
Definition cfg_shadowed : config_table :=
  {| leagues := ex_leagues;
     teams := [ ("arsenal_old", {| t_name := Some "Arsenal"; t_league := Some "eng.1";
                                   t_espn_slug := Some "ars"; t_espn_id := Some 0%Z |});
                ("arsenal", arsenal) ] |}.

(** The slug ne in two leagues. *)
Definition newcastle : team_info :=
  {| t_name := Some "Newcastle"; t_league := Some "eng.1";
     t_espn_slug := Some "ne"; t_espn_id := Some 361%Z |}.

Definition cfg_collision : config_table :=
  {| leagues := ex_leagues;
     teams := [ ("arsenal", arsenal); ("newcastle", newcastle); ("patriots", patriots) ] |}.

(** A league whose sport path is the empty string. *)
Definition cfg_empty_sport_path : config_table :=
  {| leagues := [ {| l_league := Some "eng.1"; l_sport_path := Some ""; l_sport := Some "soccer" |} ];
     teams := [ ("arsenal", arsenal) ] |}.

(** A league with neither field. *)
Definition cfg_no_sport : config_table :=
  {| leagues := [ {| l_league := Some "eng.1"; l_sport_path := None; l_sport := None |} ];
     teams := [ ("arsenal", arsenal) ] |}.

Definition ex_clock (n : nat) : Q := 5000 + inject_Z (Z.of_nat n).

(** A server that knows the two teams with a provider id and rejects every
    other URL. *)
Definition ex_upstream (n : nat) (url : string) : response :=
  if String.eqb url "https://site.api.espn.com/apis/site/v2/sports/soccer/eng.1/teams/359"
  then Body (ex_payload "ars.png")
  else if String.eqb url "https://site.api.espn.com/apis/site/v2/sports/football/nfl/teams/17"
  then Body (ex_payload "ne.png")
  else RequestException "404 Client Error: Not Found".

(** A server whose body is nested too deeply for [resp.json()]. *)
Definition upstream_deep (n : nat) (url : string) : response :=
  LibraryError "RecursionError".

(** A server that is down. *)
Definition upstream_down (n : nat) (url : string) : response :=
  RequestException "timed out".

(** A server whose payload has a null team. *)
Definition upstream_null_team (n : nat) (url : string) : response :=
  Body (JObj [("team", JNull)]).

(** A server whose payload has a logo that is not a finite number. *)
Definition upstream_nan_logo (n : nat) (url : string) : response :=
  Body (JObj [("team", JObj [("logos", JArr [JObj [("href", JNonFinite NaN)]])])]).

(** [json.dumps(..., allow_nan=False)] as [JSONResponse] applies it: a float
    that is not finite, at any depth, is refused with ValueError. *)
Fixpoint finite_value (v : value) : bool :=
  match v with
  | JNonFinite _ => false
  | JArr items => forallb finite_value items
  | JObj fields => forallb (fun field : string * value => finite_value field.2) fields
  | _ => true
  end.

Definition json_renders (rows : list value) : option string :=
  if forallb finite_value rows then None else Some "ValueError".

Definition w_empty : world :=
  {| cache := ∅; clock_reads := 0; requests := [] |}.

(** At the first clock reading (5000) the entry is 3000 seconds old. *)
Definition w_fresh : world :=
  {| cache := {[ "eng.1:ars" := (2000%Q, ex_payload "old.png") ]};
     clock_reads := 0; requests := [] |}.

(** At the first clock reading (5000) the entry is 4000 seconds old. *)
Definition w_stale : world :=
  {| cache := {[ "eng.1:ars" := (1000%Q, ex_payload "old.png") ]};
     clock_reads := 0; requests := [] |}.

Definition ars_url : string :=
  "https://site.api.espn.com/apis/site/v2/sports/soccer/eng.1/teams/359".

(** ** Vocabulary of the further properties *)

(** Every entry of the cache carries a reading of the clock that was taken,
    and a body that the server sent in answer to a logged request. *)
Definition cache_sound (clock : nat -> Q) (upstream : nat -> string -> response) (w : world)
    : Prop :=
  forall key ts data,
    cache w !! key = Some (ts, data) ->
    (exists n, (n < clock_reads w)%nat /\ ts = clock n) /\
    (exists n url, requests w !! n = Some url /\ upstream n url = Body data).

(** One call of the cached fetch, whatever its arguments. *)
Definition fetch_step (clock : nat -> Q) (upstream : nat -> string -> response) (w w' : world)
    : Prop :=
  exists sport league team id,
    w' = (get_cached_team_data clock upstream sport league team id w).2.

(** Nothing is lost from [w] to [w']: the keys of the cache stay, the log of
    requests is extended at its end, the clock readings are not undone. *)
Definition grows (w w' : world) : Prop :=
  dom (cache w) ⊆ dom (cache w') /\
  requests w `prefix_of` requests w' /\
  (clock_reads w <= clock_reads w')%nat.

(** At most [n] requests and [n] clock readings from [w] to [w']. *)
Definition within (n : nat) (w w' : world) : Prop :=
  (length (requests w') <= length (requests w) + n)%nat /\
  (clock_reads w' <= clock_reads w + n)%nat.

(** ** Proof automation *)

(** Closes [~ (... \/ ...)] when every alternative of the failure is refuted
    by a truthiness test among the hypotheses. *)
Ltac resolved :=
  let H := fresh in
  intros H;
  repeat (destruct H as [H | H]; [rewrite ?H in *; simpl in *; congruence |]);
  rewrite ?H in *; simpl in *; congruence.

(** * Properties *)

(** ** The freshness test *)

Lemma fresh_lt (now ts : Q) : fresh now ts = true <-> (now - ts < CACHE_EXPIRATION)%Q.
Proof.
  unfold fresh. rewrite negb_true_iff, <- not_true_iff_false, Qle_bool_iff.
  split; [apply Qnot_le_lt | apply Qlt_not_le].
Qed.

Lemma fresh_ge (now ts : Q) : fresh now ts = false <-> (CACHE_EXPIRATION <= now - ts)%Q.
Proof.
  unfold fresh. rewrite negb_false_iff. apply Qle_bool_iff.
Qed.

(** ** The cache in front of the fetch *)

Section CacheFacts.

Variable clock : nat -> Q.
Variable upstream : nat -> string -> response.

Lemma get_cached_hit sport league team id w ts data :
  cache w !! cache_key league team = Some (ts, data) ->
  fresh (clock (clock_reads w)) ts = true ->
  get_cached_team_data clock upstream sport league team id w = (Return data, tick w).
Proof.
  intros Hl Hf. unfold get_cached_team_data, mbind, M_bind, time_time, cache_lookup. simpl.
  rewrite Hl, Hf. reflexivity.
Qed.

Lemma get_cached_miss sport league team id w :
  stale_or_absent w (cache_key league team) (clock (clock_reads w)) ->
  get_cached_team_data clock upstream sport league team id w =
  match upstream (length (requests w)) (fetch_url sport league id) with
  | Body payload =>
      (Return payload,
       refreshed w (cache_key league team) (fetch_url sport league id)
         (Some (clock (clock_reads w), payload)))
  | RequestException e =>
      (Raise (HTTPException 500 ("Error fetching ESPN data: " +:+ e)),
       refreshed w (cache_key league team) (fetch_url sport league id) None)
  | LibraryError class_name =>
      (Raise (Other class_name),
       refreshed w (cache_key league team) (fetch_url sport league id) None)
  end.
Proof.
  intros Hs.
  unfold get_cached_team_data, fetch_team_data, mbind, M_bind, time_time, cache_lookup,
    requests_get, cache_store, mret, M_ret, raise, refreshed. simpl.
  destruct Hs as [Hn | (ts & data & Hl & Hage)].
  - rewrite Hn. destruct (upstream _ _); reflexivity.
  - rewrite Hl. apply fresh_ge in Hage. rewrite Hage.
    destruct (upstream _ _); reflexivity.
Qed.

(** Every state is in one of the two cases. *)
Lemma fresh_or_stale w key now :
  (exists ts data, cache w !! key = Some (ts, data) /\ fresh now ts = true) \/
  stale_or_absent w key now.
Proof.
  unfold stale_or_absent. destruct (cache w !! key) as [[ts data]|] eqn:Hl.
  - destruct (fresh now ts) eqn:Hf.
    + left. eauto.
    + right. right. exists ts, data. split; [reflexivity | by apply fresh_ge].
  - right. by left.
Qed.

(** A call touches no slot but the one of its key. *)
Lemma get_cached_other_slot sport league team id w key' :
  cache_key league team <> key' ->
  cache (get_cached_team_data clock upstream sport league team id w).2 !! key' = cache w !! key'.
Proof.
  intros Hne.
  destruct (fresh_or_stale w (cache_key league team) (clock (clock_reads w)))
    as [(ts & data & Hl & Hf) | Hs].
  - by rewrite (get_cached_hit _ _ _ _ _ _ _ Hl Hf).
  - rewrite (get_cached_miss _ _ _ _ _ Hs).
    destruct (upstream _ _); simpl; [by apply lookup_insert_ne | done | done].
Qed.

(** C1. A call of [get_cached_team_data] whose key has an entry younger than
    3600 seconds returns the payload of that entry and sends no request (the
    state only records the clock reading).  Otherwise (no entry, or an entry
    of age at least 3600 seconds) it sends exactly one request, the one for
    the URL of its arguments; when the server answers with a body, the entry
    of the key is replaced by the pair of the current time and that body, and
    the body is returned.  In particular the result of a call that finds an
    entry of age at least 3600 seconds is the answer of the server, never the
    stored payload. *)
Theorem get_cached_team_data_freshness sport league team id w :
  let key := cache_key league team in
  let now := clock (clock_reads w) in
  let url := fetch_url sport league id in
  let call := get_cached_team_data clock upstream sport league team id w in
  (forall ts data,
      cache w !! key = Some (ts, data) -> (now - ts < CACHE_EXPIRATION)%Q ->
      call = (Return data, tick w)) /\
  (stale_or_absent w key now ->
      requests call.2 = (requests w ++ [url])%list /\
      forall payload,
        upstream (length (requests w)) url = Body payload ->
        call = (Return payload,
                {| cache := <[key := (now, payload)]> (cache w);
                   clock_reads := S (clock_reads w);
                   requests := (requests w ++ [url])%list |})) /\
  (forall ts data,
      cache w !! key = Some (ts, data) -> (CACHE_EXPIRATION <= now - ts)%Q ->
      call.1 = match upstream (length (requests w)) url with
               | Body payload => Return payload
               | RequestException e =>
                   Raise (HTTPException 500 ("Error fetching ESPN data: " +:+ e))
               | LibraryError class_name => Raise (Other class_name)
               end).
Proof.
  intros key now url call. subst call. split; [|split].
  - intros ts data Hl Hage. apply get_cached_hit with ts; [done | by apply fresh_lt].
  - intros Hs. rewrite (get_cached_miss _ _ _ _ _ Hs). fold key now url.
    split.
    + by destruct (upstream _ _).
    + intros payload Hup. by rewrite Hup.
  - intros ts data Hl Hage.
    rewrite get_cached_miss by (right; eauto).
    by destruct (upstream _ _).
Qed.


End CacheFacts.

(** ** Keys *)

Lemma append_nil_l (s : string) : "" +:+ s = s.
Proof. reflexivity. Qed.

Lemma append_cons (c : ascii) (a s : string) : String c a +:+ s = String c (a +:+ s).
Proof. reflexivity. Qed.

Lemma length_append (a b : string) :
  String.length (a +:+ b) = (String.length a + String.length b)%nat.
Proof.
  induction a as [|c a IH]; [done |].
  rewrite append_cons. simpl. by rewrite IH.
Qed.

Lemma append_cancel_r (a b c : string) : a +:+ c = b +:+ c -> a = b.
Proof.
  revert b. induction a as [|x a IH]; intros [|y b] H.
  - done.
  - apply (f_equal String.length) in H. rewrite !length_append in H. simpl in H. lia.
  - apply (f_equal String.length) in H. rewrite !length_append in H. simpl in H. lia.
  - rewrite !append_cons in H. injection H as -> H. f_equal. by apply IH.
Qed.

Lemma separator_unique (l1 l2 s1 s2 : string) :
  no_colon l1 = true -> no_colon l2 = true ->
  l1 +:+ ":" +:+ s1 = l2 +:+ ":" +:+ s2 -> l1 = l2 /\ s1 = s2.
Proof.
  revert l2. induction l1 as [|x l1 IH]; intros [|y l2] H1 H2 H;
    rewrite ?append_nil_l, ?append_cons, ?append_nil_l in H; simpl in H1, H2.
  - by injection H as ->.
  - injection H as <- _. done.
  - injection H as -> _. done.
  - injection H as -> H.
    apply andb_prop in H1 as [_ H1]. apply andb_prop in H2 as [_ H2].
    destruct (IH _ H1 H2 H) as [-> ->]. done.
Qed.

(** C3 (as amended). The key is a function of the pair (league slug, team
    slug), so equal pairs derive equal keys.  Pairs that differ derive
    different keys when they agree on the league, when they agree on the team
    slug, and whenever neither league slug contains a colon.  A call for one
    key leaves the slot of every other key as it was. *)
Theorem cache_key_separation :
  (forall l1 s1 l2 s2 : string,
      (l1, s1) = (l2, s2) -> cache_key (Some l1) (Some s1) = cache_key (Some l2) (Some s2)) /\
  (forall l s1 s2 : string,
      s1 <> s2 -> cache_key (Some l) (Some s1) <> cache_key (Some l) (Some s2)) /\
  (forall l1 l2 s : string,
      l1 <> l2 -> cache_key (Some l1) (Some s) <> cache_key (Some l2) (Some s)) /\
  (forall l1 s1 l2 s2 : string,
      no_colon l1 = true -> no_colon l2 = true -> (l1, s1) <> (l2, s2) ->
      cache_key (Some l1) (Some s1) <> cache_key (Some l2) (Some s2)) /\
  (forall clock upstream sport id w (l1 s1 l2 s2 : option string),
      cache_key l1 s1 <> cache_key l2 s2 ->
      cache (get_cached_team_data clock upstream sport l1 s1 id w).2 !! cache_key l2 s2
      = cache w !! cache_key l2 s2).
Proof.
  unfold cache_key. simpl. repeat split.
  - intros l1 s1 l2 s2 [= -> ->]. done.
  - intros l s1 s2 Hne H. apply Hne.
    apply String.app_inj in H. by injection H.
  - intros l1 l2 s Hne H. apply Hne. by apply append_cancel_r in H.
  - intros l1 s1 l2 s2 H1 H2 Hne H. apply Hne.
    destruct (separator_unique _ _ _ _ H1 H2 H) as [-> ->]. done.
  - intros. by apply get_cached_other_slot.
Qed.


(** ** Resolution against the configuration *)

Lemma truthy_int_false (id : option Z) :
  truthy_int id = false <-> id = None \/ id = Some 0%Z.
Proof.
  destruct id as [z|]; simpl.
  - rewrite negb_false_iff, Z.eqb_eq. split; [intros ->; by right | intros [|[= ->]]; done].
  - split; [by left | done].
Qed.

Lemma find_first {A : Type} (f : A -> bool) (pre post : list A) (x : A) :
  Forall (fun y => f y = false) pre -> f x = true ->
  List.find f (pre ++ x :: post) = Some x.
Proof.
  intros Hpre Hx. induction Hpre as [|y pre Hy _ IH]; simpl.
  - by rewrite Hx.
  - by rewrite Hy.
Qed.

Lemma no_self_append {A : Type} (l : list A) (x : A) : l <> (l ++ [x])%list.
Proof.
  intros H. apply (f_equal length) in H. rewrite length_app in H. simpl in H. lia.
Qed.

Lemma py_get_raises v k d e : py_get v k d = Raise e -> e = AttributeError.
Proof. destruct v; simpl; congruence. Qed.

Lemma project_fixtures_raises data e : project_fixtures data = Raise e -> e = AttributeError.
Proof.
  unfold project_fixtures.
  destruct (py_get data _ _) as [team|e1] eqn:H1.
  - destruct (py_get team _ _) as [fx|e2] eqn:H2; [done |].
    intros [= <-]. by apply py_get_raises in H2.
  - intros [= <-]. by apply py_get_raises in H1.
Qed.

Section Endpoints.

Variable clock : nat -> Q.
Variable upstream : nat -> string -> response.
Variable config : config_table.
Variable renders : list value -> option string.

Lemma get_cached_cases sport league team id w :
  let key := cache_key league team in
  let now := clock (clock_reads w) in
  let url := fetch_url sport league id in
  let call := get_cached_team_data clock upstream sport league team id w in
  (exists data, call = (Return data, tick w)) \/
  (exists payload,
      upstream (length (requests w)) url = Body payload /\
      call = (Return payload, refreshed w key url (Some (now, payload)))) \/
  (exists e,
      upstream (length (requests w)) url = RequestException e /\
      call = (Raise (HTTPException 500 ("Error fetching ESPN data: " +:+ e)),
              refreshed w key url None)) \/
  (exists class_name,
      upstream (length (requests w)) url = LibraryError class_name /\
      call = (Raise (Other class_name), refreshed w key url None)).
Proof.
  intros key now url call. subst call.
  destruct (fresh_or_stale w key now) as [(ts & data & Hl & Hf) | Hs].
  - left. exists data. by apply get_cached_hit with ts.
  - right. rewrite (get_cached_miss _ _ _ _ _ _ _ Hs). fold key now url.
    destruct (upstream _ _) as [payload|e|class_name];
      [left | right; left | right; right]; eauto.
Qed.

Lemma api_team_loop_find items team_slug league_slug :
  api_team_loop clock upstream config items team_slug league_slug =
  match List.find (matches_slug_league team_slug league_slug) items with
  | None => raise (HTTPException 404 "Team or league not found in config")
  | Some (_, info) =>
      if negb (truthy_int (t_espn_id info))
      then raise (HTTPException 404 "Team ESPN ID not found in config")
      else if negb (truthy_str (find_sport_slug config (Some league_slug)))
      then raise (HTTPException 404 "Sport slug not found in config")
      else get_cached_team_data clock upstream (find_sport_slug config (Some league_slug))
             (Some league_slug) (Some team_slug) (t_espn_id info)
  end.
Proof.
  induction items as [|[k info] rest IH]; simpl; [done |].
  unfold matches_slug_league at 1. simpl.
  destruct (_ && _); [done | apply IH].
Qed.

Lemma api_team_no_league_loop_find items team_slug :
  api_team_no_league_loop clock upstream config items team_slug =
  match List.find (matches_slug team_slug) items with
  | None => raise (HTTPException 404 "Team not found in config")
  | Some (_, info) =>
      if negb (truthy_int (t_espn_id info)) || negb (truthy_str (t_league info))
      then raise (HTTPException 404 "Team ESPN ID or league not found in config")
      else if negb (truthy_str (find_sport_slug config (t_league info)))
      then raise (HTTPException 404 "Sport slug not found in config")
      else get_cached_team_data clock upstream (find_sport_slug config (t_league info))
             (t_league info) (Some team_slug) (t_espn_id info)
  end.
Proof.
  induction items as [|[k info] rest IH]; simpl; [done |].
  unfold matches_slug at 1. simpl.
  destruct (bool_decide _); [done | apply IH].
Qed.

Lemma api_fixtures_loop_find items team_slug league_slug :
  api_fixtures_loop clock upstream config items team_slug league_slug =
  match List.find (matches_slug_league team_slug league_slug) items with
  | None => raise (HTTPException 404 "Team or league not found in config")
  | Some (_, info) =>
      if negb (truthy_int (t_espn_id info))
      then raise (HTTPException 404 "Team ESPN ID not found in config")
      else if negb (truthy_str (find_sport_slug config (Some league_slug)))
      then raise (HTTPException 404 "Sport slug not found in config")
      else
        data ← get_cached_team_data clock upstream (find_sport_slug config (Some league_slug))
                 (Some league_slug) (Some team_slug) (t_espn_id info);
        lift (project_fixtures data)
  end.
Proof.
  induction items as [|[k info] rest IH]; simpl; [done |].
  unfold matches_slug_league at 1. simpl.
  destruct (_ && _); [done | apply IH].
Qed.

(** *** Error statuses *)

Lemma upstream_failure_refreshed w key url entry :
  upstream_failure upstream w (refreshed w key url entry) <->
  exists e, upstream (length (requests w)) url = RequestException e.
Proof.
  unfold upstream_failure. simpl. split.
  - intros (url' & e & Hreq & Hup). apply app_inv_head in Hreq. injection Hreq as <-. eauto.
  - intros [e Hup]. eauto.
Qed.

Lemma upstream_failure_tick w : ~ upstream_failure upstream w (tick w).
Proof. intros (url & e & Hreq & _). simpl in Hreq. by apply no_self_append in Hreq. Qed.

Lemma upstream_failure_same w : ~ upstream_failure upstream w w.
Proof. intros (url & e & Hreq & _). by apply no_self_append in Hreq. Qed.

Lemma library_failure_refreshed class_name w key url entry :
  library_failure upstream class_name w (refreshed w key url entry) <->
  upstream (length (requests w)) url = LibraryError class_name.
Proof.
  unfold library_failure. simpl. split.
  - intros (url' & Hreq & Hup). apply app_inv_head in Hreq. by injection Hreq as <-.
  - intros Hup. eauto.
Qed.

Lemma library_failure_tick class_name w : ~ library_failure upstream class_name w (tick w).
Proof. intros (url & Hreq & _). simpl in Hreq. by apply no_self_append in Hreq. Qed.

Lemma library_failure_same class_name w : ~ library_failure upstream class_name w w.
Proof. intros (url & Hreq & _). by apply no_self_append in Hreq. Qed.

Lemma statuses_of_config_failure (cf : Prop) d :
  cf -> error_statuses upstream (raise (HTTPException 404 d)) cf.
Proof.
  intros Hcf w. unfold raise. simpl.
  split; [split; [done | eauto] |].
  split; [done |].
  split; [split; [by intros [d' [=]] | intros H; by apply upstream_failure_same in H] |].
  split; [intros st d' [= <- _]; by left |].
  intros class_name. split; [by intros [=] | intros H; by apply library_failure_same in H].
Qed.

Lemma statuses_of_fetch (cf : Prop) sport league team id :
  ~ cf -> error_statuses upstream (get_cached_team_data clock upstream sport league team id) cf.
Proof.
  intros Hcf w.
  destruct (get_cached_cases sport league team id w)
    as [[data ->] | [(payload & Hup & ->) | [(e & Hup & ->) | (class_name & Hup & ->)]]];
    simpl.
  - split; [split; [by intros [d [=]] | intros H; destruct (Hcf H)] |].
    split; [by intros [d [=]] |].
    split; [split; [by intros [d [=]] | intros H; by apply upstream_failure_tick in H] |].
    split; [by intros st d [=] |].
    intros name. split; [by intros [=] | intros H; by apply library_failure_tick in H].
  - split; [split; [by intros [d [=]] | intros H; destruct (Hcf H)] |].
    split; [by intros [d [=]] |].
    split; [split; [by intros [d [=]] |] |].
    { intros H. apply upstream_failure_refreshed in H as [e He]. congruence. }
    split; [by intros st d [=] |].
    intros name. split; [by intros [=] |].
    intros H. apply library_failure_refreshed in H. congruence.
  - split; [split; [by intros [d [=]] | intros H; destruct (Hcf H)] |].
    split; [by intros [d [=]] |].
    split; [split; [| eauto] |].
    { intros _. apply upstream_failure_refreshed. eauto. }
    split; [intros st d [= <- _]; by right |].
    intros name. split; [by intros [=] |].
    intros H. apply library_failure_refreshed in H. congruence.
  - split; [split; [by intros [d [=]] | intros H; destruct (Hcf H)] |].
    split; [by intros [d [=]] |].
    split; [split; [by intros [d [=]] |] |].
    { intros H. apply upstream_failure_refreshed in H as [e He]. congruence. }
    split; [by intros st d [=] |].
    intros name. split.
    + intros [= <-]. by apply library_failure_refreshed.
    + intros H. apply library_failure_refreshed in H. congruence.
Qed.

Lemma statuses_of_fixtures (cf : Prop) sport league team id :
  ~ cf ->
  error_statuses upstream
    (data ← get_cached_team_data clock upstream sport league team id;
     lift (project_fixtures data)) cf.
Proof.
  intros Hcf w. pose proof (statuses_of_fetch cf sport league team id Hcf w) as Hfetch.
  unfold mbind, M_bind, lift.
  destruct (get_cached_team_data clock upstream sport league team id w) as [[data|e] w'] eqn:Hcall;
    simpl in *; [|exact Hfetch].
  destruct Hfetch as (_ & _ & H500 & _ & Hlib).
  assert (Hr : forall st d, project_fixtures data <> Raise (HTTPException st d)).
  { intros st d H. apply project_fixtures_raises in H. done. }
  assert (Hr' : forall class_name, project_fixtures data <> Raise (Other class_name)).
  { intros class_name H. apply project_fixtures_raises in H. done. }
  split; [split; [intros [d H]; by apply Hr in H | intros H; destruct (Hcf H)] |].
  split; [intros [d H]; by apply Hr in H |].
  split; [split; [intros [d H]; by apply Hr in H | intros H; apply H500 in H as [d [=]]] |].
  split; [intros st d H; by apply Hr in H |].
  intros class_name. split; [intros H; by apply Hr' in H |].
  intros H. by apply Hlib in H.
Qed.

Lemma api_team_statuses team_slug league_slug :
  error_statuses upstream (api_team clock upstream config team_slug league_slug)
    (config_failure config team_slug league_slug).
Proof.
  unfold api_team, config_failure. rewrite api_team_loop_find.
  destruct (List.find _ _) as [[k info]|]; [|by apply statuses_of_config_failure].
  destruct (truthy_int (t_espn_id info)) eqn:Hid; simpl.
  - destruct (truthy_str (find_sport_slug config (Some league_slug))) eqn:Hsport; simpl.
    + apply statuses_of_fetch. resolved.
    + apply statuses_of_config_failure. auto.
  - apply statuses_of_config_failure. apply truthy_int_false in Hid. tauto.
Qed.

Lemma api_team_no_league_statuses team_slug :
  error_statuses upstream (api_team_no_league clock upstream config team_slug)
    (config_failure_no_league config team_slug).
Proof.
  unfold api_team_no_league, config_failure_no_league. rewrite api_team_no_league_loop_find.
  destruct (List.find _ _) as [[k info]|]; [|by apply statuses_of_config_failure].
  destruct (truthy_int (t_espn_id info)) eqn:Hid; simpl.
  - destruct (truthy_str (t_league info)) eqn:Hleague; simpl.
    + destruct (truthy_str (find_sport_slug config (t_league info))) eqn:Hsport; simpl.
      * apply statuses_of_fetch. resolved.
      * apply statuses_of_config_failure. auto.
    + apply statuses_of_config_failure. auto.
  - apply statuses_of_config_failure. apply truthy_int_false in Hid. tauto.
Qed.

Lemma api_fixtures_statuses team_slug league_slug :
  error_statuses upstream (api_fixtures clock upstream config team_slug league_slug)
    (config_failure config team_slug league_slug).
Proof.
  unfold api_fixtures, config_failure. rewrite api_fixtures_loop_find.
  destruct (List.find _ _) as [[k info]|]; [|by apply statuses_of_config_failure].
  destruct (truthy_int (t_espn_id info)) eqn:Hid; simpl.
  - destruct (truthy_str (find_sport_slug config (Some league_slug))) eqn:Hsport; simpl.
    + apply statuses_of_fixtures. resolved.
    + apply statuses_of_config_failure. auto.
  - apply statuses_of_config_failure. apply truthy_int_false in Hid. tauto.
Qed.

(** C4 (as amended). For the two single-team endpoints and the fixtures
    endpoint, an HTTP error has status 404 exactly when resolution against
    the configuration fails (no matching team, provider id absent or zero,
    league absent for the endpoint that infers it, sport path not
    resolvable), in which case no request is sent, and status 500 exactly
    when the request that was sent failed with a [RequestException]; no
    other status is produced.  An exception of the fetch that is no
    [RequestException] is not converted: it leaves the endpoint as it is,
    without a status, exactly when the fetch raised it. *)
Theorem endpoint_error_statuses team_slug league_slug :
  error_statuses upstream (api_team clock upstream config team_slug league_slug)
    (config_failure config team_slug league_slug) /\
  error_statuses upstream (api_team_no_league clock upstream config team_slug)
    (config_failure_no_league config team_slug) /\
  error_statuses upstream (api_fixtures clock upstream config team_slug league_slug)
    (config_failure config team_slug league_slug).
Proof.
  split; [|split].
  - apply api_team_statuses.
  - apply api_team_no_league_statuses.
  - apply api_fixtures_statuses.
Qed.

(** *** First match wins *)

Lemma matches_slug_league_spec team_slug league_slug (item : string * team_info) :
  matches_slug_league team_slug league_slug item = true <->
  t_espn_slug item.2 = Some team_slug /\ t_league item.2 = Some league_slug.
Proof.
  unfold matches_slug_league. by rewrite andb_true_iff, !bool_decide_eq_true.
Qed.

Lemma matches_slug_spec team_slug (item : string * team_info) :
  matches_slug team_slug item = true <-> t_espn_slug item.2 = Some team_slug.
Proof. unfold matches_slug. by rewrite bool_decide_eq_true. Qed.

Lemma Forall_not_true {A : Type} (f : A -> bool) (P : A -> Prop) (l : list A) :
  (forall x, f x = true <-> P x) ->
  Forall (fun x => ~ P x) l -> Forall (fun x => f x = false) l.
Proof.
  intros Hf H. induction H as [|x l Hx _ IH]; constructor; [|done].
  apply not_true_is_false. by rewrite Hf.
Qed.

(** C10. The scan of [api_team] stops at the first entry whose slug and
    league both match.  When the provider id of that entry is absent or zero
    the endpoint fails with 404 at once and leaves the state untouched,
    whatever entries follow: a later entry with the same slug and league and
    a valid id is not consulted. *)
Theorem api_team_first_match_decides pre key info post team_slug league_slug w :
  teams config = (pre ++ (key, info) :: post)%list ->
  Forall (fun item : string * team_info =>
            ~ (t_espn_slug item.2 = Some team_slug /\ t_league item.2 = Some league_slug)) pre ->
  t_espn_slug info = Some team_slug ->
  t_league info = Some league_slug ->
  t_espn_id info = None \/ t_espn_id info = Some 0%Z ->
  api_team clock upstream config team_slug league_slug w =
    (Raise (HTTPException 404 "Team ESPN ID not found in config"), w).
Proof.
  intros Hteams Hpre Hslug Hleague Hid.
  unfold api_team. rewrite api_team_loop_find, Hteams.
  rewrite (find_first _ pre post (key, info)).
  - apply truthy_int_false in Hid. by rewrite Hid.
  - by apply (Forall_not_true _ _ _ (matches_slug_league_spec team_slug league_slug)).
  - by apply matches_slug_league_spec.
Qed.

(** C8. [api_team_no_league] resolves the first team, in the order of the
    configuration, whose slug is the given one.  The handler behaves as it
    does on the configuration in which that team is the only one, so the
    teams that follow it (among them any team of another league with the
    same slug) have no influence; when the first match has a provider id, a
    league and a sport path, the call is the cached fetch for that team. *)
Theorem api_team_no_league_first_match pre key info post team_slug :
  teams config = (pre ++ (key, info) :: post)%list ->
  Forall (fun item : string * team_info => t_espn_slug item.2 <> Some team_slug) pre ->
  t_espn_slug info = Some team_slug ->
  api_team_no_league clock upstream config team_slug =
    api_team_no_league clock upstream
      {| leagues := leagues config; teams := [(key, info)] |} team_slug /\
  (truthy_int (t_espn_id info) = true ->
   truthy_str (t_league info) = true ->
   truthy_str (find_sport_slug config (t_league info)) = true ->
   api_team_no_league clock upstream config team_slug =
     get_cached_team_data clock upstream (find_sport_slug config (t_league info))
       (t_league info) (Some team_slug) (t_espn_id info)).
Proof.
  intros Hteams Hpre Hslug.
  assert (Hfind : List.find (matches_slug team_slug) (teams config) = Some (key, info)).
  { rewrite Hteams. apply find_first.
    - by apply (Forall_not_true _ _ _ (matches_slug_spec team_slug)).
    - by apply matches_slug_spec. }
  unfold api_team_no_league. rewrite !api_team_no_league_loop_find, Hfind. simpl.
  unfold matches_slug. simpl. rewrite bool_decide_eq_true_2 by done.
  split; [done |].
  intros Hid Hleague Hsport. by rewrite Hid, Hleague, Hsport.
Qed.

(** *** Sport path *)

Lemma find_sport_slug_in_first pre l post league_slug :
  Forall (fun l' => l_league l' <> league_slug) pre ->
  l_league l = league_slug ->
  find_sport_slug_in (pre ++ l :: post) league_slug = py_or (l_sport_path l) (l_sport l).
Proof.
  intros Hpre Hl. induction Hpre as [|l' pre Hl' _ IH]; simpl.
  - by rewrite bool_decide_eq_true_2.
  - by rewrite bool_decide_eq_false_2.
Qed.

Lemma find_sport_slug_in_none ls league_slug :
  Forall (fun l' => l_league l' <> league_slug) ls ->
  find_sport_slug_in ls league_slug = None.
Proof.
  intros H. induction H as [|l' ls Hl' _ IH]; simpl; [done |].
  by rewrite bool_decide_eq_false_2.
Qed.

(** C7 (as amended). [find_sport_slug] answers for the first league of the
    configuration whose name is the given one.  It returns the sport path of
    that league when it is present and not empty, and the generic sport field
    when the sport path is absent or empty; a league with only the generic
    field resolves to it.  It yields [None] when no league matches and when
    the league has neither field.  When the team is found with a provider id
    and the result is [None] or empty, the three endpoints fail with 404
    "Sport slug not found in config". *)
Theorem find_sport_slug_resolution league_slug :
  (Forall (fun l => l_league l <> league_slug) (leagues config) ->
   find_sport_slug config league_slug = None) /\
  (forall pre l post,
      leagues config = (pre ++ l :: post)%list ->
      Forall (fun l' => l_league l' <> league_slug) pre ->
      l_league l = league_slug ->
      (forall p, l_sport_path l = Some p -> p <> "" ->
                 find_sport_slug config league_slug = Some p) /\
      (l_sport_path l = None \/ l_sport_path l = Some "" ->
       find_sport_slug config league_slug = l_sport l) /\
      (l_sport_path l = None -> l_sport l = None ->
       find_sport_slug config league_slug = None)) /\
  (forall team_slug league key info w,
      league_slug = Some league ->
      truthy_str (find_sport_slug config league_slug) = false ->
      List.find (matches_slug_league team_slug league) (teams config) = Some (key, info) ->
      truthy_int (t_espn_id info) = true ->
      api_team clock upstream config team_slug league w =
        (Raise (HTTPException 404 "Sport slug not found in config"), w) /\
      api_fixtures clock upstream config team_slug league w =
        (Raise (HTTPException 404 "Sport slug not found in config"), w)) /\
  (forall team_slug key info w,
      truthy_str (find_sport_slug config league_slug) = false ->
      List.find (matches_slug team_slug) (teams config) = Some (key, info) ->
      truthy_int (t_espn_id info) = true ->
      t_league info = league_slug ->
      truthy_str league_slug = true ->
      api_team_no_league clock upstream config team_slug w =
        (Raise (HTTPException 404 "Sport slug not found in config"), w)).
Proof.
  unfold find_sport_slug. split; [|split; [|split]].
  - apply find_sport_slug_in_none.
  - intros pre l post Hls Hpre Hl.
    rewrite Hls, (find_sport_slug_in_first _ _ _ _ Hpre Hl). unfold py_or.
    split; [|split].
    + intros p Hp Hne. rewrite Hp. simpl.
      destruct (String.eqb_spec p ""); [done | reflexivity].
    + intros [Hp | Hp]; by rewrite Hp.
    + intros Hp Hs. by rewrite Hp.
  - intros team_slug league key info w -> Hsport Hfind Hid.
    unfold api_team, api_fixtures.
    rewrite api_team_loop_find, api_fixtures_loop_find, Hfind, Hid. simpl.
    unfold find_sport_slug. by rewrite Hsport.
  - intros team_slug key info w Hsport Hfind Hid Hleague Htruthy.
    unfold api_team_no_league.
    rewrite api_team_no_league_loop_find, Hfind, Hid. simpl.
    unfold find_sport_slug. by rewrite Hleague, Htruthy, Hsport.
Qed.

(** *** Fixtures *)

(** What the fixtures endpoint guarantees (the part of C6 that the code
    keeps).  When resolution against the configuration fails,
    [api_fixtures] fails with 404 and leaves the state untouched.  When it
    succeeds and the payload obtained from the cache or the fetch is an
    object, the endpoint returns the object with the single field
    [fixtures], whose value is the value of [nextEvent] inside the object
    [team] of the payload, and is the empty list when the payload has no
    field [team], or when its [team] is an object without a field
    [nextEvent]. *)
Theorem api_fixtures_projection team_slug league_slug w :
  (config_failure config team_slug league_slug ->
   exists d,
     api_fixtures clock upstream config team_slug league_slug w =
       (Raise (HTTPException 404 d), w)) /\
  (forall key info fields w',
      List.find (matches_slug_league team_slug league_slug) (teams config) = Some (key, info) ->
      ~ config_failure config team_slug league_slug ->
      get_cached_team_data clock upstream (find_sport_slug config (Some league_slug))
        (Some league_slug) (Some team_slug) (t_espn_id info) w = (Return (JObj fields), w') ->
      (assoc "team" fields = None ->
       api_fixtures clock upstream config team_slug league_slug w =
         (Return (JObj [("fixtures", JArr [])]), w')) /\
      (forall team_fields,
          assoc "team" fields = Some (JObj team_fields) ->
          (forall s, assoc "nextEvent" team_fields = Some s ->
                     api_fixtures clock upstream config team_slug league_slug w =
                       (Return (JObj [("fixtures", s)]), w')) /\
          (assoc "nextEvent" team_fields = None ->
           api_fixtures clock upstream config team_slug league_slug w =
             (Return (JObj [("fixtures", JArr [])]), w')))).
Proof.
  split.
  - intros Hcf.
    destruct (api_fixtures_statuses team_slug league_slug w) as (H404 & Hsame & _).
    apply H404 in Hcf as Hd. destruct Hd as [d Hd]. exists d.
    rewrite <- (Hsame (ex_intro _ d Hd)) at 2. rewrite <- Hd.
    by destruct (api_fixtures _ _ _ _ _ _).
  - intros key info fields w' Hfind Hok Hcall.
    unfold config_failure in Hok. rewrite Hfind in Hok.
    assert (Hid : truthy_int (t_espn_id info) = true).
    { destruct (truthy_int _) eqn:H; [done |]. apply truthy_int_false in H. tauto. }
    assert (Hsport : truthy_str (find_sport_slug config (Some league_slug)) = true).
    { destruct (truthy_str _); [done | tauto]. }
    unfold api_fixtures. rewrite api_fixtures_loop_find, Hfind, Hid, Hsport. simpl.
    unfold mbind, M_bind, lift. rewrite Hcall. unfold project_fixtures. simpl.
    split.
    + by intros ->.
    + intros team_fields ->. simpl. split.
      * by intros s ->.
      * by intros ->.
Qed.

(** *** The bulk listing *)

Lemma get_all_teams_loop_listing items results w :
  get_all_teams_loop clock upstream config items results w =
  (Return (results ++ (listing clock upstream config items w).1)%list,
   (listing clock upstream config items w).2).
Proof.
  revert results w. induction items as [|[k info] rest IH]; intros results w; simpl.
  - by rewrite app_nil_r.
  - unfold attempt.
    destruct (truthy_str (find_sport_slug config (t_league info))); simpl.
    + unfold mbind at 1. unfold M_bind at 1. unfold try_except, team_row.
      unfold mbind at 1. unfold M_bind at 1.
      destruct (get_cached_team_data _ _ _ _ _ _ w) as [[payload|e] w1]; simpl.
      * unfold mbind, M_bind, lift, mret, M_ret.
        destruct (project_row info payload) as [row|e]; simpl.
        -- rewrite IH. destruct (listing _ _ _ rest w1) as [rows w2]. simpl.
           by rewrite <- app_assoc.
        -- rewrite IH. by destruct (listing _ _ _ rest w1) as [rows w2].
      * unfold mret, M_ret. rewrite IH. by destruct (listing _ _ _ rest w1) as [rows w2].
    + rewrite IH. by destruct (listing _ _ _ rest w) as [rows w2].
Qed.

Lemma listing_app items1 items2 w :
  listing clock upstream config (items1 ++ items2) w =
  let '(rows1, w1) := listing clock upstream config items1 w in
  let '(rows2, w2) := listing clock upstream config items2 w1 in
  ((rows1 ++ rows2)%list, w2).
Proof.
  revert w. induction items1 as [|[k info] rest IH]; intros w; simpl.
  - by destruct (listing _ _ _ items2 w).
  - destruct (attempt _ _ _ info w) as [o w1]. rewrite IH.
    destruct (listing _ _ _ rest w1) as [rows1 w2].
    destruct (listing _ _ _ items2 w2) as [rows2 w3].
    by destruct o.
Qed.

Lemma listing_all_succeed items w :
  all_succeed clock upstream config items w ->
  length (listing clock upstream config items w).1 = length items.
Proof.
  revert w. induction items as [|[k info] rest IH]; intros w; simpl; [done |].
  destruct (attempt _ _ _ info w) as [o w1]. simpl. intros [[row ->] Hrest].
  specialize (IH _ Hrest). destruct (listing _ _ _ rest w1) as [rows w2]. simpl in *.
  by rewrite IH.
Qed.

Lemma attempt_fetch_failure info w e :
  stale_or_absent w (cache_key (t_league info) (t_espn_slug info)) (clock (clock_reads w)) ->
  upstream (length (requests w))
    (fetch_url (find_sport_slug config (t_league info)) (t_league info) (t_espn_id info))
    = RequestException e ->
  (attempt clock upstream config info w).1 = None.
Proof.
  intros Hs Hup. unfold attempt.
  destruct (truthy_str _); [|done].
  by rewrite (get_cached_miss _ _ _ _ _ _ _ Hs), Hup.
Qed.

Lemma project_row_logo info fields team_fields :
  assoc "team" fields = Some (JObj team_fields) \/
  (assoc "team" fields = None /\ team_fields = []) ->
  (forall first rest,
      assoc "logos" team_fields = Some (JArr (JObj first :: rest)) ->
      project_row info (JObj fields) =
        Return (summary_row info
                  (match assoc "href" first with Some href => href | None => JNull end))) /\
  (assoc "logos" team_fields = None \/ assoc "logos" team_fields = Some (JArr []) ->
   project_row info (JObj fields) = Return (summary_row info JNull)).
Proof.
  intros Hteam. unfold project_row. simpl.
  assert (Ht : match assoc "team" fields with Some x => x | None => JObj [] end
               = JObj team_fields).
  { destruct Hteam as [-> | [-> ->]]; done. }
  rewrite Ht. simpl. split.
  - by intros first rest ->.
  - by intros [-> | ->].
Qed.

Lemma get_all_teams_run w :
  get_all_teams clock upstream config renders w =
    (JSONResponse renders (listing clock upstream config (teams config) w).1,
     (listing clock upstream config (teams config) w).2).
Proof.
  unfold get_all_teams, mbind, M_bind, lift. by rewrite get_all_teams_loop_listing.
Qed.

(** What the bulk listing guarantees (the part of C5 that the code keeps).
    [get_all_teams] raises nothing of its own: it hands to [JSONResponse] the
    rows of the fold of per-team attempts over the configured teams, in their
    order, each team giving one row or none, and its result is what
    [JSONResponse] makes of them.  A team gives no row when its sport path does not resolve
    and when its request fails.  The logo of a row is the [href] of the first
    element of [logos] inside [team] of the payload when that list is not
    empty, and null when the list is empty or absent.  Given three configured
    teams of which one has no provider id, exactly two rows are handed over
    provided that the key of that team has no fresh entry, that the server
    fails its request, and that the two other teams succeed. *)
Theorem get_all_teams_best_effort w :
  get_all_teams clock upstream config renders w =
    (JSONResponse renders (listing clock upstream config (teams config) w).1,
     (listing clock upstream config (teams config) w).2) /\
  (forall info w0,
      truthy_str (find_sport_slug config (t_league info)) = false ->
      attempt clock upstream config info w0 = (None, w0)) /\
  (forall info w0 e,
      stale_or_absent w0 (cache_key (t_league info) (t_espn_slug info))
        (clock (clock_reads w0)) ->
      upstream (length (requests w0))
        (fetch_url (find_sport_slug config (t_league info)) (t_league info) (t_espn_id info))
        = RequestException e ->
      (attempt clock upstream config info w0).1 = None) /\
  (forall info fields team_fields,
      assoc "team" fields = Some (JObj team_fields) \/
      (assoc "team" fields = None /\ team_fields = []) ->
      (forall first rest,
          assoc "logos" team_fields = Some (JArr (JObj first :: rest)) ->
          project_row info (JObj fields) =
            Return (summary_row info
                      (match assoc "href" first with Some href => href | None => JNull end))) /\
      (assoc "logos" team_fields = None \/ assoc "logos" team_fields = Some (JArr []) ->
       project_row info (JObj fields) = Return (summary_row info JNull))) /\
  (forall pre key info post e,
      teams config = (pre ++ (key, info) :: post)%list ->
      (length pre + length post = 2)%nat ->
      t_espn_id info = None ->
      all_succeed clock upstream config pre w ->
      let w1 := (listing clock upstream config pre w).2 in
      stale_or_absent w1 (cache_key (t_league info) (t_espn_slug info))
        (clock (clock_reads w1)) ->
      upstream (length (requests w1))
        (fetch_url (find_sport_slug config (t_league info)) (t_league info) None)
        = RequestException e ->
      all_succeed clock upstream config post (attempt clock upstream config info w1).2 ->
      exists rows w',
        get_all_teams clock upstream config renders w = (JSONResponse renders rows, w') /\
        length rows = 2%nat).
Proof.
  pose proof (get_all_teams_run w) as Hrun.
  split; [exact Hrun |]. split; [|split; [|split]].
  - intros info w0 H. unfold attempt. by rewrite H.
  - intros info w0 e. apply attempt_fetch_failure.
  - apply project_row_logo.
  - intros pre key info post e Hteams Hlen Hid Hpre w1 Hstale Hup Hpost.
    eexists _, _. split; [exact Hrun |].
    rewrite Hteams, listing_app.
    pose proof (listing_all_succeed pre w Hpre) as Hlen1. fold w1.
    destruct (listing clock upstream config pre w) as [rows1 w1'] eqn:Hl1.
    simpl in w1, Hlen1. subst w1. simpl.
    rewrite <- Hid in Hup.
    pose proof (attempt_fetch_failure info w1' e Hstale Hup) as Hnone.
    pose proof (listing_all_succeed post _ Hpost) as Hlen2.
    destruct (attempt clock upstream config info w1') as [o w2]. simpl in Hnone, Hlen2.
    subst o.
    destruct (listing clock upstream config post w2) as [rows2 w3]. simpl in *.
    rewrite length_app. lia.
Qed.

(** C9. When the key has an entry younger than 3600 seconds, the result of
    [get_cached_team_data] does not depend on the sport path and on the
    provider id it is given: any two calls that agree on league and slug
    return the stored payload and send no request, also when the id is
    [None].  Hence a configured team, with or without provider id, whose
    sport path resolves and whose key is freshly cached when its turn comes
    gets its row among the rows that [get_all_teams] hands to [JSONResponse];
    they are the result of [get_all_teams] when [JSONResponse] renders
    them. *)
Theorem fresh_entry_ignores_sport_and_id w :
  (forall sport1 sport2 id1 id2 league team ts data,
      cache w !! cache_key league team = Some (ts, data) ->
      (clock (clock_reads w) - ts < CACHE_EXPIRATION)%Q ->
      get_cached_team_data clock upstream sport1 league team id1 w = (Return data, tick w) /\
      get_cached_team_data clock upstream sport2 league team id2 w = (Return data, tick w) /\
      get_cached_team_data clock upstream sport1 league team None w = (Return data, tick w)) /\
  (forall pre key info post ts data row,
      teams config = (pre ++ (key, info) :: post)%list ->
      t_espn_id info = None ->
      truthy_str (find_sport_slug config (t_league info)) = true ->
      let w1 := (listing clock upstream config pre w).2 in
      cache w1 !! cache_key (t_league info) (t_espn_slug info) = Some (ts, data) ->
      (clock (clock_reads w1) - ts < CACHE_EXPIRATION)%Q ->
      project_row info data = Return row ->
      exists rows w',
        In row rows /\
        get_all_teams clock upstream config renders w = (JSONResponse renders rows, w') /\
        (renders rows = None ->
         get_all_teams clock upstream config renders w = (Return rows, w'))).
Proof.
  split.
  - intros sport1 sport2 id1 id2 league team ts data Hl Hage.
    apply fresh_lt in Hage.
    repeat split; by apply get_cached_hit with ts.
  - intros pre key info post ts data row Hteams _ Hsport w1 Hl Hage Hrow.
    rewrite get_all_teams_run. eexists _, _.
    split; [| split; [reflexivity | by unfold JSONResponse; intros ->]].
    rewrite Hteams, listing_app. fold w1.
    destruct (listing clock upstream config pre w) as [rows1 w1'] eqn:Hl1.
    simpl in w1. subst w1. simpl.
    unfold attempt. rewrite Hsport.
    apply fresh_lt in Hage.
    rewrite (get_cached_hit _ _ _ _ _ _ _ _ _ Hl Hage), Hrow.
    destruct (listing clock upstream config post (tick w1')) as [rows2 w3]. simpl.
    apply in_or_app. right. by left.
Qed.

End Endpoints.

(** * The properties on concrete inputs *)

Lemma w_stale_is_stale :
  stale_or_absent w_stale (cache_key (Some "eng.1") (Some "ars")) (ex_clock (clock_reads w_stale)).
Proof.
  right. exists 1000%Q, (ex_payload "old.png"). split; [vm_compute; reflexivity |].
  vm_compute. discriminate.
Defined.

Lemma get_cached_team_data_freshness_witness :
  get_cached_team_data ex_clock ex_upstream (Some "soccer") (Some "eng.1") (Some "ars")
    (Some 359%Z) w_fresh = (Return (ex_payload "old.png"), tick w_fresh) /\
  get_cached_team_data ex_clock ex_upstream (Some "soccer") (Some "eng.1") (Some "ars")
    (Some 359%Z) w_stale =
    (Return (ex_payload "ars.png"),
     {| cache := <["eng.1:ars" := (5000%Q, ex_payload "ars.png")]> (cache w_stale);
        clock_reads := 1; requests := [ars_url] |}).
Proof.
  split.
  - apply (proj1 (get_cached_team_data_freshness ex_clock ex_upstream (Some "soccer")
                    (Some "eng.1") (Some "ars") (Some 359%Z) w_fresh) 2000%Q);
      vm_compute; reflexivity.
  - destruct (proj1 (proj2 (get_cached_team_data_freshness ex_clock ex_upstream (Some "soccer")
                    (Some "eng.1") (Some "ars") (Some 359%Z) w_stale)) w_stale_is_stale)
      as [_ H].
    apply (H (ex_payload "ars.png")). vm_compute; reflexivity.
Defined.


(** C3, as stated, fails: a colon inside a league slug moves the boundary
    between the two components of the key. *)
Lemma cache_key_collision :
  ("eng:1", "ars") <> ("eng", "1:ars") /\
  cache_key (Some "eng:1") (Some "ars") = cache_key (Some "eng") (Some "1:ars").
Proof. split; [discriminate | reflexivity]. Qed.

Lemma cache_key_separation_witness :
  cache_key (Some "eng.1") (Some "ars") <> cache_key (Some "esp.1") (Some "ars") /\
  cache_key (Some "eng.1") (Some "ars") <> cache_key (Some "eng.1") (Some "che") /\
  cache_key (Some "eng.1") (Some "ars") <> cache_key (Some "esp.1") (Some "bar").
Proof.
  destruct cache_key_separation as (_ & Hslug & Hleague & Hpair & _).
  split; [|split].
  - apply Hleague. discriminate.
  - apply Hslug. discriminate.
  - apply Hpair; [reflexivity | reflexivity | discriminate].
Defined.

(** C5. The claim asks that, of three configured teams of which one has no
    provider id, exactly two rows are returned.  [get_all_teams] does not
    test the provider id, as the three other handlers do: here the team
    without id shares league and slug with the first team, its payload is
    served from the entry that the first team has just stored, and three rows
    are returned. *)
Lemma get_all_teams_three_rows :
  map (fun item : string * team_info => t_espn_id item.2) (teams cfg_duplicate)
    = [Some 359%Z; None; Some 17%Z] /\
  (get_all_teams ex_clock ex_upstream cfg_duplicate json_renders w_empty).1 =
    Return [ JObj [("name", JStr "Arsenal"); ("league", JStr "eng.1");
                   ("espn_slug", JStr "ars"); ("logo", JStr "ars.png")];
             JObj [("name", JStr "Arsenal Women"); ("league", JStr "eng.1");
                   ("espn_slug", JStr "ars"); ("logo", JStr "ars.png")];
             JObj [("name", JStr "Patriots"); ("league", JStr "nfl");
                   ("espn_slug", JStr "ne"); ("logo", JStr "ne.png")] ].
Proof. split; vm_compute; reflexivity. Qed.

(** A logo that is not a finite number: every team gives its row, and
    [JSONResponse] refuses the rows. *)
Lemma get_all_teams_nan_logo :
  (get_all_teams ex_clock upstream_nan_logo cfg_three json_renders w_empty).1
    = Raise (Other "ValueError").
Proof. vm_compute. reflexivity. Qed.

Lemma get_all_teams_best_effort_witness :
  exists rows w',
    get_all_teams ex_clock ex_upstream cfg_three json_renders w_empty
      = (JSONResponse json_renders rows, w') /\
    length rows = 2%nat.
Proof.
  destruct (get_all_teams_best_effort ex_clock ex_upstream cfg_three json_renders w_empty)
    as (_ & _ & _ & _ & H).
  apply (H [("arsenal", arsenal)] "chelsea"
           {| t_name := Some "Chelsea"; t_league := Some "eng.1";
              t_espn_slug := Some "che"; t_espn_id := None |}
           [("patriots", patriots)] "404 Client Error: Not Found").
  - reflexivity.
  - reflexivity.
  - reflexivity.
  - vm_compute. split; [eexists; reflexivity | exact I].
  - left. vm_compute. reflexivity.
  - vm_compute. reflexivity.
  - vm_compute. split; [eexists; reflexivity | exact I].
Defined.

(** C4, as stated, fails: the team is resolved and the fetch fails inside
    [resp.json()] with an exception that is no [RequestException]; the
    [except] clause of [fetch_team_data] does not catch it, and the error of
    the endpoint is that exception, which carries neither 404 nor 500. *)
Lemma api_team_library_error :
  api_team ex_clock upstream_deep cfg_three "ars" "eng.1" w_empty =
    (Raise (Other "RecursionError"),
     {| cache := ∅; clock_reads := 1; requests := [ars_url] |}).
Proof. vm_compute. reflexivity. Qed.

Lemma endpoint_error_statuses_witness :
  (exists d,
      (api_team ex_clock ex_upstream cfg_three "bar" "esp.1" w_empty).1
        = Raise (HTTPException 404 d)) /\
  (exists d,
      (api_fixtures ex_clock upstream_down cfg_three "ars" "eng.1" w_empty).1
        = Raise (HTTPException 500 d)).
Proof.
  split.
  - destruct (endpoint_error_statuses ex_clock ex_upstream cfg_three "bar" "esp.1")
      as (Hteam & _ & _).
    destruct (Hteam w_empty) as (H404 & _).
    apply H404. vm_compute. exact I.
  - destruct (endpoint_error_statuses ex_clock upstream_down cfg_three "ars" "eng.1")
      as (_ & _ & Hfix).
    destruct (Hfix w_empty) as (_ & _ & H500 & _).
    apply H500. exists ars_url, "timed out". split; vm_compute; reflexivity.
Defined.

(** C6.  The claim asks for the empty list whenever the path team.nextEvent
    is absent at any level.  The two defaults of line 109 cover a missing
    key only: here the team is resolved and the payload is fetched, the path
    is absent from it because [team] is null, and the handler raises
    [AttributeError] instead of returning the empty list; the payload stays
    in the cache. *)
Lemma api_fixtures_null_team :
  api_fixtures ex_clock upstream_null_team cfg_three "ars" "eng.1" w_empty =
    (Raise AttributeError,
     {| cache := {[ "eng.1:ars" := (5000%Q, JObj [("team", JNull)]) ]};
        clock_reads := 1; requests := [ars_url] |}).
Proof. vm_compute. reflexivity. Qed.

Lemma api_fixtures_projection_witness :
  api_fixtures ex_clock ex_upstream cfg_three "ars" "eng.1" w_fresh =
    (Return (JObj [("fixtures", JArr [JObj [("id", JStr "401")]])]), tick w_fresh) /\
  exists d,
    api_fixtures ex_clock ex_upstream cfg_three "che" "eng.1" w_fresh =
      (Raise (HTTPException 404 d), w_fresh).
Proof.
  destruct (api_fixtures_projection ex_clock ex_upstream cfg_three "ars" "eng.1" w_fresh)
    as [_ Hok].
  destruct (api_fixtures_projection ex_clock ex_upstream cfg_three "che" "eng.1" w_fresh)
    as [Hfail _].
  split.
  - destruct (Hok "arsenal" arsenal
                [("team", JObj [("logos", JArr [JObj [("href", JStr "old.png")]]);
                                ("nextEvent", JArr [JObj [("id", JStr "401")]])])]
                (tick w_fresh)) as [_ Hteam].
    + reflexivity.
    + vm_compute. intros [H | [H | H]]; discriminate H.
    + vm_compute. reflexivity.
    + destruct (Hteam [("logos", JArr [JObj [("href", JStr "old.png")]]);
                       ("nextEvent", JArr [JObj [("id", JStr "401")]])]) as [Hnext _].
      * reflexivity.
      * apply Hnext. reflexivity.
  - apply Hfail. vm_compute. left. reflexivity.
Defined.

(** C7, as stated, fails: the sport path of the league is present, it is the
    empty string, and the generic sport field is returned in its place. *)
Lemma find_sport_slug_empty_sport_path :
  map l_sport_path (leagues cfg_empty_sport_path) = [Some ""] /\
  find_sport_slug cfg_empty_sport_path (Some "eng.1") = Some "soccer".
Proof. split; reflexivity. Qed.

Lemma find_sport_slug_resolution_witness :
  find_sport_slug cfg_three (Some "eng.1") = Some "soccer" /\
  find_sport_slug cfg_three (Some "nfl") = Some "football" /\
  find_sport_slug cfg_three (Some "nba") = None /\
  api_team ex_clock ex_upstream cfg_no_sport "ars" "eng.1" w_empty =
    (Raise (HTTPException 404 "Sport slug not found in config"), w_empty).
Proof.
  split; [|split; [|split]].
  - destruct (find_sport_slug_resolution ex_clock ex_upstream cfg_three (Some "eng.1"))
      as (_ & H & _).
    destruct (H [] {| l_league := Some "eng.1"; l_sport_path := Some "soccer"; l_sport := None |}
                [{| l_league := Some "nfl"; l_sport_path := None; l_sport := Some "football" |}])
      as (Hpath & _); [reflexivity | constructor | reflexivity |].
    apply Hpath; [reflexivity | discriminate].
  - destruct (find_sport_slug_resolution ex_clock ex_upstream cfg_three (Some "nfl"))
      as (_ & H & _).
    destruct (H [{| l_league := Some "eng.1"; l_sport_path := Some "soccer"; l_sport := None |}]
                {| l_league := Some "nfl"; l_sport_path := None; l_sport := Some "football" |} [])
      as (_ & Hsport & _); [reflexivity | repeat constructor; discriminate | reflexivity |].
    apply Hsport. left. reflexivity.
  - destruct (find_sport_slug_resolution ex_clock ex_upstream cfg_three (Some "nba"))
      as (H & _).
    apply H. repeat constructor; discriminate.
  - destruct (find_sport_slug_resolution ex_clock ex_upstream cfg_no_sport (Some "eng.1"))
      as (_ & _ & H & _).
    apply (H "ars" "eng.1" "arsenal" arsenal w_empty); reflexivity.
Defined.

Lemma api_team_no_league_first_match_witness :
  api_team_no_league ex_clock ex_upstream cfg_collision "ne" w_empty =
    get_cached_team_data ex_clock ex_upstream (Some "soccer") (Some "eng.1") (Some "ne")
      (Some 361%Z) w_empty /\
  requests (api_team_no_league ex_clock ex_upstream cfg_collision "ne" w_empty).2 =
    ["https://site.api.espn.com/apis/site/v2/sports/soccer/eng.1/teams/361"].
Proof.
  assert (Hpre : Forall (fun item : string * team_info => t_espn_slug item.2 <> Some "ne")
                   [("arsenal", arsenal)]).
  { repeat constructor. discriminate. }
  destruct (api_team_no_league_first_match ex_clock ex_upstream cfg_collision
              [("arsenal", arsenal)] "newcastle" newcastle [("patriots", patriots)] "ne"
              eq_refl Hpre eq_refl) as [_ H].
  rewrite H by reflexivity.
  split; vm_compute; reflexivity.
Defined.

Lemma fresh_entry_ignores_sport_and_id_witness :
  get_cached_team_data ex_clock upstream_down (Some "football") (Some "eng.1") (Some "ars")
    None w_fresh = (Return (ex_payload "old.png"), tick w_fresh) /\
  exists rows w',
    In (JObj [("name", JStr "Arsenal Women"); ("league", JStr "eng.1");
              ("espn_slug", JStr "ars"); ("logo", JStr "ars.png")]) rows /\
    get_all_teams ex_clock ex_upstream cfg_duplicate json_renders w_empty
      = (JSONResponse json_renders rows, w') /\
    (json_renders rows = None ->
     get_all_teams ex_clock ex_upstream cfg_duplicate json_renders w_empty = (Return rows, w')).
Proof.
  split.
  - destruct (fresh_entry_ignores_sport_and_id ex_clock upstream_down cfg_three json_renders w_fresh)
      as [H _].
    apply (H (Some "soccer") (Some "football") (Some 359%Z) None (Some "eng.1") (Some "ars")
             2000%Q (ex_payload "old.png")); vm_compute; reflexivity.
  - destruct (fresh_entry_ignores_sport_and_id ex_clock ex_upstream cfg_duplicate json_renders w_empty)
      as [_ H].
    apply (H [("arsenal", arsenal)] "arsenal_women"
             {| t_name := Some "Arsenal Women"; t_league := Some "eng.1";
                t_espn_slug := Some "ars"; t_espn_id := None |}
             [("patriots", patriots)] 5000%Q (ex_payload "ars.png"));
      vm_compute; reflexivity.
Defined.

Lemma api_team_first_match_decides_witness :
  api_team ex_clock ex_upstream cfg_shadowed "ars" "eng.1" w_empty =
    (Raise (HTTPException 404 "Team ESPN ID not found in config"), w_empty).
Proof.
  apply (api_team_first_match_decides ex_clock ex_upstream cfg_shadowed
           [] "arsenal_old"
           {| t_name := Some "Arsenal"; t_league := Some "eng.1";
              t_espn_slug := Some "ars"; t_espn_id := Some 0%Z |}
           [("arsenal", arsenal)] "ars" "eng.1" w_empty).
  - reflexivity.
  - constructor.
  - reflexivity.
  - reflexivity.
  - right. reflexivity.
Defined.

(** * Further properties of the handlers *)

Section Steps.

Variable clock : nat -> Q.
Variable upstream : nat -> string -> response.
Variable config : config_table.
Variable renders : list value -> option string.

(** ** Every handler is a sequence of cached fetches *)

Lemma bind_lift_state {A B : Type} (m : M A) (f : A -> outcome B) w :
  ((a ← m; lift (f a)) w).2 = (m w).2.
Proof.
  unfold mbind, M_bind, lift. by destruct (m w) as [[a|e] w'].
Qed.

Lemma api_team_step team_slug league_slug w :
  (api_team clock upstream config team_slug league_slug w).2 = w \/
  fetch_step clock upstream w (api_team clock upstream config team_slug league_slug w).2.
Proof.
  unfold api_team. rewrite api_team_loop_find.
  destruct (List.find _ _) as [[k info]|]; [|by left].
  destruct (negb _); [by left |]. destruct (negb _); [by left |].
  right. by eexists _, _, _, _.
Qed.

Lemma api_team_no_league_step team_slug w :
  (api_team_no_league clock upstream config team_slug w).2 = w \/
  fetch_step clock upstream w (api_team_no_league clock upstream config team_slug w).2.
Proof.
  unfold api_team_no_league. rewrite api_team_no_league_loop_find.
  destruct (List.find _ _) as [[k info]|]; [|by left].
  destruct (_ || _); [by left |]. destruct (negb _); [by left |].
  right. by eexists _, _, _, _.
Qed.

Lemma api_fixtures_step team_slug league_slug w :
  (api_fixtures clock upstream config team_slug league_slug w).2 = w \/
  fetch_step clock upstream w (api_fixtures clock upstream config team_slug league_slug w).2.
Proof.
  unfold api_fixtures. rewrite api_fixtures_loop_find.
  destruct (List.find _ _) as [[k info]|]; [|by left].
  destruct (negb _); [by left |]. destruct (negb _); [by left |].
  right. rewrite bind_lift_state. by eexists _, _, _, _.
Qed.

Lemma attempt_step info w :
  (attempt clock upstream config info w).2 = w \/
  fetch_step clock upstream w (attempt clock upstream config info w).2.
Proof.
  unfold attempt. destruct (truthy_str _); [|by left].
  right. exists (find_sport_slug config (t_league info)), (t_league info),
    (t_espn_slug info), (t_espn_id info).
  by destruct (get_cached_team_data _ _ _ _ _ _ w) as [[payload|e] w'].
Qed.

(** A property of pairs of states that holds of a state and itself, is
    transitive and holds across one cached fetch, holds across every
    handler. *)
Lemma handlers_by_steps (R : world -> world -> Prop) :
  (forall w, R w w) ->
  (forall w1 w2 w3, R w1 w2 -> R w2 w3 -> R w1 w3) ->
  (forall w w', fetch_step clock upstream w w' -> R w w') ->
  forall team_slug league_slug w,
    R w (api_team clock upstream config team_slug league_slug w).2 /\
    R w (api_team_no_league clock upstream config team_slug w).2 /\
    R w (api_fixtures clock upstream config team_slug league_slug w).2 /\
    R w (get_all_teams clock upstream config renders w).2.
Proof.
  intros Hrefl Htrans Hstep team_slug league_slug w.
  assert (Hone : forall w', w' = w \/ fetch_step clock upstream w w' -> R w w').
  { intros w' [-> | H]; auto. }
  split; [|split; [|split]].
  - apply Hone, api_team_step.
  - apply Hone, api_team_no_league_step.
  - apply Hone, api_fixtures_step.
  - rewrite get_all_teams_run. simpl.
    generalize (teams config) as items. intros items. clear Hone. revert w.
    induction items as [|[k info] rest IH]; intros w; simpl; [done |].
    pose proof (attempt_step info w) as Hatt.
    destruct (attempt clock upstream config info w) as [o w1]. simpl in Hatt.
    specialize (IH w1). destruct (listing clock upstream config rest w1) as [rows w2].
    simpl in *. apply Htrans with w1; [|done].
    destruct Hatt as [-> | H]; auto.
Qed.

(** ** What one cached fetch does to the state *)

Lemma fetch_step_cases w w' :
  fetch_step clock upstream w w' ->
  w' = tick w \/
  exists key url entry,
    w' = refreshed w key url entry /\
    match entry with
    | Some (ts, data) =>
        ts = clock (clock_reads w) /\ upstream (length (requests w)) url = Body data
    | None => True
    end.
Proof.
  intros (sport & league & team & id & ->).
  destruct (get_cached_cases clock upstream sport league team id w)
    as [[data ->] | [(payload & Hup & ->) | [(e & Hup & ->) | (class_name & Hup & ->)]]];
    simpl.
  - by left.
  - right. by eexists _, _, (Some (_, _)).
  - right. by eexists _, _, None.
  - right. by eexists _, _, None.
Qed.

Lemma fetch_step_sound w w' :
  fetch_step clock upstream w w' -> cache_sound clock upstream w -> cache_sound clock upstream w'.
Proof.
  intros Hstep Hs.
  assert (Hold : forall key ts data url,
    cache w !! key = Some (ts, data) ->
    (exists n, (n < S (clock_reads w))%nat /\ ts = clock n) /\
    (exists n url', (requests w ++ [url])%list !! n = Some url' /\ upstream n url' = Body data)).
  { intros key ts data url Hl. destruct (Hs _ _ _ Hl) as [(n & Hn & ->) (m & url' & Hm & Hup)].
    split; [exists n; split; [lia | done] |].
    exists m, url'. split; [by apply lookup_app_l_Some | done]. }
  destruct (fetch_step_cases _ _ Hstep) as [-> | (key & url & entry & -> & Hentry)].
  - intros key ts data Hl. simpl in *.
    destruct (Hs _ _ _ Hl) as [(n & Hn & ->) Hreq]. split; [|done].
    exists n. split; [lia | done].
  - intros key' ts data Hl. simpl in *. destruct entry as [[ts0 data0]|].
    + destruct Hentry as [-> Hup].
      destruct (decide (key = key')) as [<- | Hne].
      * rewrite lookup_insert_eq in Hl. injection Hl as <- <-. split.
        -- exists (clock_reads w). split; [lia | done].
        -- exists (length (requests w)), url. split; [apply list_lookup_middle; done | done].
      * rewrite lookup_insert_ne in Hl by done. by apply Hold with key'.
    + by apply Hold with key'.
Qed.

Lemma fetch_step_grows w w' : fetch_step clock upstream w w' -> grows w w'.
Proof.
  intros Hstep.
  destruct (fetch_step_cases _ _ Hstep) as [-> | (key & url & entry & -> & _)];
    unfold grows; simpl.
  - split; [done |]. split; [done | lia].
  - split; [|split; [by apply prefix_app_r | lia]].
    destruct entry; [|done]. rewrite dom_insert. set_solver.
Qed.

Lemma fetch_step_within w w' : fetch_step clock upstream w w' -> within 1 w w'.
Proof.
  intros Hstep.
  destruct (fetch_step_cases _ _ Hstep) as [-> | (key & url & entry & -> & _)];
    unfold within; simpl; [lia |].
  rewrite length_app. simpl. lia.
Qed.

Lemma grows_refl w : grows w w.
Proof. unfold grows. split; [done |]. split; [done | lia]. Qed.

Lemma grows_trans w1 w2 w3 : grows w1 w2 -> grows w2 w3 -> grows w1 w3.
Proof.
  intros (Hd1 & Hr1 & Hc1) (Hd2 & Hr2 & Hc2). unfold grows.
  split; [set_solver |]. split; [by trans (requests w2) | lia].
Qed.

(** ** Invariants *)

(** X1. The cache only ever holds what the server sent: if every entry of
    the cache carries a clock reading that was taken and a body that the
    server gave in answer to a logged request, the same is true after each
    of the four handlers.  The empty cache is such a state. *)
Theorem cache_sound_invariant team_slug league_slug w :
  cache_sound clock upstream w ->
  cache_sound clock upstream (api_team clock upstream config team_slug league_slug w).2 /\
  cache_sound clock upstream (api_team_no_league clock upstream config team_slug w).2 /\
  cache_sound clock upstream (api_fixtures clock upstream config team_slug league_slug w).2 /\
  cache_sound clock upstream (get_all_teams clock upstream config renders w).2.
Proof.
  intros Hs.
  destruct (handlers_by_steps
              (fun w w' => cache_sound clock upstream w -> cache_sound clock upstream w')
              (fun _ H => H) (fun _ _ _ H12 H23 H => H23 (H12 H))
              fetch_step_sound team_slug league_slug w)
    as (H1 & H2 & H3 & H4).
  auto.
Qed.

(** X2. No handler deletes anything: after each of the four handlers every
    key of the cache is still a key, the log of requests is the old log
    extended at its end, and the count of clock readings has not gone down. *)
Theorem handlers_only_grow team_slug league_slug w :
  grows w (api_team clock upstream config team_slug league_slug w).2 /\
  grows w (api_team_no_league clock upstream config team_slug w).2 /\
  grows w (api_fixtures clock upstream config team_slug league_slug w).2 /\
  grows w (get_all_teams clock upstream config renders w).2.
Proof.
  apply (handlers_by_steps grows grows_refl grows_trans fetch_step_grows).
Qed.

Lemma listing_within items w :
  within (length items) w (listing clock upstream config items w).2.
Proof.
  revert w. induction items as [|[k info] rest IH]; intros w; simpl.
  - unfold within. lia.
  - pose proof (attempt_step info w) as Hatt.
    destruct (attempt clock upstream config info w) as [o w1]. simpl in Hatt.
    specialize (IH w1). destruct (listing clock upstream config rest w1) as [rows w2].
    simpl in *.
    assert (H1 : within 1 w w1).
    { destruct Hatt as [-> | H]; [unfold within; lia | by apply fetch_step_within]. }
    unfold within in *. lia.
Qed.

(** X3. A call of a single-team or fixtures endpoint sends at most one
    request and reads the clock at most once; a call of the bulk listing
    sends at most one request, and reads the clock at most once, per
    configured team. *)
Theorem handlers_request_bound team_slug league_slug w :
  within 1 w (api_team clock upstream config team_slug league_slug w).2 /\
  within 1 w (api_team_no_league clock upstream config team_slug w).2 /\
  within 1 w (api_fixtures clock upstream config team_slug league_slug w).2 /\
  within (length (teams config)) w (get_all_teams clock upstream config renders w).2.
Proof.
  assert (Hone : forall w', w' = w \/ fetch_step clock upstream w w' -> within 1 w w').
  { intros w' [-> | H]; [unfold within; lia | by apply fetch_step_within]. }
  split; [|split; [|split]].
  - apply Hone, api_team_step.
  - apply Hone, api_team_no_league_step.
  - apply Hone, api_fixtures_step.
  - rewrite get_all_teams_run. simpl. apply listing_within.
Qed.

End Steps.

(** * How the calls compose *)

Lemma age_zero_fresh (now : Q) : (now - now < CACHE_EXPIRATION)%Q.
Proof. unfold CACHE_EXPIRATION. lra. Qed.

Lemma stale_later (now now' ts : Q) :
  (CACHE_EXPIRATION <= now - ts)%Q -> (now <= now')%Q -> (CACHE_EXPIRATION <= now' - ts)%Q.
Proof. intros. lra. Qed.

Lemma find_refined {A : Type} (f g : A -> bool) (l : list A) (x : A) :
  (forall y, g y = true -> f y = true) ->
  List.find f l = Some x -> g x = true -> List.find g l = Some x.
Proof.
  intros Hgf. induction l as [|y l IH]; simpl; [done |].
  destruct (f y) eqn:Hf.
  - intros [= ->] Hg. by rewrite Hg.
  - intros Hfind Hg. destruct (g y) eqn:Hgy; [|by apply IH].
    apply Hgf in Hgy. congruence.
Qed.

Section Composition.

Variable clock : nat -> Q.
Variable upstream : nat -> string -> response.
Variable config : config_table.
Variable renders : list value -> option string.

(** ** What a returned payload tells about the cache *)

Lemma get_cached_returns sport league team id w payload w' :
  get_cached_team_data clock upstream sport league team id w = (Return payload, w') ->
  clock_reads w' = S (clock_reads w) /\
  exists ts,
    cache w' !! cache_key league team = Some (ts, payload) /\
    (clock (clock_reads w) - ts < CACHE_EXPIRATION)%Q.
Proof.
  intros Hcall.
  destruct (fresh_or_stale w (cache_key league team) (clock (clock_reads w)))
    as [(ts & data & Hl & Hf) | Hs].
  - rewrite (get_cached_hit _ _ _ _ _ _ _ _ _ Hl Hf) in Hcall.
    injection Hcall as <- <-. split; [done |].
    exists ts. split; [done | by apply fresh_lt].
  - rewrite (get_cached_miss _ _ _ _ _ _ _ Hs) in Hcall.
    destruct (upstream _ _) as [body|e|class_name]; [|done|done].
    injection Hcall as <- <-. split; [done |].
    exists (clock (clock_reads w)). simpl.
    split; [apply lookup_insert_eq | apply age_zero_fresh].
Qed.

Lemma api_team_returns team_slug league_slug w payload w' :
  api_team clock upstream config team_slug league_slug w = (Return payload, w') ->
  exists key info,
    List.find (matches_slug_league team_slug league_slug) (teams config) = Some (key, info) /\
    truthy_int (t_espn_id info) = true /\
    truthy_str (find_sport_slug config (Some league_slug)) = true /\
    get_cached_team_data clock upstream (find_sport_slug config (Some league_slug))
      (Some league_slug) (Some team_slug) (t_espn_id info) w = (Return payload, w').
Proof.
  unfold api_team. rewrite api_team_loop_find.
  destruct (List.find _ _) as [[k info]|]; [|done].
  destruct (truthy_int _) eqn:Hid; [|done].
  destruct (truthy_str _) eqn:Hsport; [|done]. simpl.
  intros Hcall. by exists k, info.
Qed.

Lemma api_team_no_league_returns team_slug w payload w' :
  api_team_no_league clock upstream config team_slug w = (Return payload, w') ->
  exists key info,
    List.find (matches_slug team_slug) (teams config) = Some (key, info) /\
    truthy_int (t_espn_id info) = true /\
    truthy_str (t_league info) = true /\
    truthy_str (find_sport_slug config (t_league info)) = true /\
    get_cached_team_data clock upstream (find_sport_slug config (t_league info))
      (t_league info) (Some team_slug) (t_espn_id info) w = (Return payload, w').
Proof.
  unfold api_team_no_league. rewrite api_team_no_league_loop_find.
  destruct (List.find _ _) as [[k info]|]; [|done].
  destruct (truthy_int _) eqn:Hid; [|done].
  destruct (truthy_str (t_league info)) eqn:Hleague; [|done].
  destruct (truthy_str (find_sport_slug _ _)) eqn:Hsport; [|done]. simpl.
  intros Hcall. by exists k, info.
Qed.

(** X4. Whatever the cache layer returns is in the cache: when
    [get_cached_team_data] returns a payload, the state it leaves holds that
    payload under the key of the call, with a timestamp less than 3600
    seconds before the clock reading of the call, and the clock was read
    once.  The same holds of [api_team], for the key of its two arguments,
    and of [api_team_no_league], for the key made of the league of the first
    team with the slug. *)
Theorem returned_payload_is_cached team_slug league_slug w payload w' :
  (forall sport league team id,
      get_cached_team_data clock upstream sport league team id w = (Return payload, w') ->
      clock_reads w' = S (clock_reads w) /\
      exists ts,
        cache w' !! cache_key league team = Some (ts, payload) /\
        (clock (clock_reads w) - ts < CACHE_EXPIRATION)%Q) /\
  (api_team clock upstream config team_slug league_slug w = (Return payload, w') ->
   exists ts,
     cache w' !! cache_key (Some league_slug) (Some team_slug) = Some (ts, payload) /\
     (clock (clock_reads w) - ts < CACHE_EXPIRATION)%Q) /\
  (api_team_no_league clock upstream config team_slug w = (Return payload, w') ->
   exists key info ts,
     List.find (matches_slug team_slug) (teams config) = Some (key, info) /\
     cache w' !! cache_key (t_league info) (Some team_slug) = Some (ts, payload) /\
     (clock (clock_reads w) - ts < CACHE_EXPIRATION)%Q).
Proof.
  split; [|split].
  - intros sport league team id. apply get_cached_returns.
  - intros H. apply api_team_returns in H as (k & info & _ & _ & _ & H).
    by apply get_cached_returns in H as [_ H].
  - intros H. apply api_team_no_league_returns in H as (k & info & Hfind & _ & _ & _ & H).
    apply get_cached_returns in H as [_ (ts & Hl & Hage)]. by exists k, info, ts.
Qed.

(** X5. A fetched payload serves the next caller.  When a call finds its key
    absent or stale and the server answers with a body, the next call for
    the same league and slug, if the clock has advanced by less than 3600
    seconds, returns that body and sends no request, whatever sport path and
    provider id it is given. *)
Theorem fetch_then_hit sport league team id w payload sport' id' :
  let w1 := (get_cached_team_data clock upstream sport league team id w).2 in
  stale_or_absent w (cache_key league team) (clock (clock_reads w)) ->
  upstream (length (requests w)) (fetch_url sport league id) = Body payload ->
  (clock (S (clock_reads w)) - clock (clock_reads w) < CACHE_EXPIRATION)%Q ->
  get_cached_team_data clock upstream sport' league team id' w1 = (Return payload, tick w1).
Proof.
  intros w1 Hs Hup Hage. subst w1.
  rewrite (get_cached_miss _ _ _ _ _ _ _ Hs), Hup. simpl.
  apply get_cached_hit with (clock (clock_reads w)); simpl.
  - apply lookup_insert_eq.
  - by apply fresh_lt.
Qed.

(** X6. A failed fetch does not stop the next one.  When a call finds its key
    absent or stale and its request fails, the next call with the same
    arguments, if the clock has not gone backwards, sends the request again:
    the stale entry is not served and its age is not reset. *)
Theorem failure_then_retry sport league team id w e :
  let w1 := (get_cached_team_data clock upstream sport league team id w).2 in
  let url := fetch_url sport league id in
  stale_or_absent w (cache_key league team) (clock (clock_reads w)) ->
  upstream (length (requests w)) url = RequestException e ->
  (clock (clock_reads w) <= clock (S (clock_reads w)))%Q ->
  requests (get_cached_team_data clock upstream sport league team id w1).2
    = (requests w ++ [url; url])%list /\
  (get_cached_team_data clock upstream sport league team id w1).1
    = match upstream (S (length (requests w))) url with
      | Body payload => Return payload
      | RequestException e' => Raise (HTTPException 500 ("Error fetching ESPN data: " +:+ e'))
      | LibraryError class_name => Raise (Other class_name)
      end.
Proof.
  intros w1 url Hs Hup Hmono. subst w1.
  rewrite (get_cached_miss _ _ _ _ _ _ _ Hs). fold url. rewrite Hup. simpl.
  assert (Hs' : stale_or_absent (refreshed w (cache_key league team) url None)
                  (cache_key league team) (clock (S (clock_reads w)))).
  { destruct Hs as [Hn | (ts & data & Hl & Hage)]; [by left |].
    right. exists ts, data. split; [done |]. by apply stale_later with (clock (clock_reads w)). }
  rewrite (get_cached_miss _ _ _ _ _ _ _ Hs'). fold url. simpl.
  rewrite length_app. simpl. replace (length (requests w) + 1)%nat with (S (length (requests w))) by lia.
  destruct (upstream (S _) url); simpl; by rewrite <- app_assoc.
Qed.

(** ** How the endpoints relate *)

(** X7. The fixtures endpoint is the team endpoint followed by the
    projection: on every state, [api_fixtures] ends as [api_team] does for
    the same arguments, with the same state and the same error, and where
    [api_team] returns a payload it returns (or raises) what
    [project_fixtures] makes of that payload. *)
Theorem api_fixtures_is_api_team_projected team_slug league_slug w :
  api_fixtures clock upstream config team_slug league_slug w =
  match api_team clock upstream config team_slug league_slug w with
  | (Return payload, w') => (project_fixtures payload, w')
  | (Raise e, w') => (Raise e, w')
  end.
Proof.
  unfold api_fixtures, api_team. rewrite api_fixtures_loop_find, api_team_loop_find.
  destruct (List.find _ _) as [[k info]|]; [|done].
  destruct (negb _); [done |]. destruct (negb _); [done |].
  unfold mbind, M_bind, lift.
  by destruct (get_cached_team_data _ _ _ _ _ _ w) as [[payload|e] w'].
Qed.

(** X8. The endpoint without league is the endpoint with league, at the
    league of the first team with the slug: when that team has a league that
    is not empty and a provider id, the two handlers are the same
    computation. *)
Theorem api_team_no_league_is_api_team pre key info post team_slug league_slug :
  teams config = (pre ++ (key, info) :: post)%list ->
  Forall (fun item : string * team_info => t_espn_slug item.2 <> Some team_slug) pre ->
  t_espn_slug info = Some team_slug ->
  t_league info = Some league_slug ->
  league_slug <> "" ->
  truthy_int (t_espn_id info) = true ->
  api_team_no_league clock upstream config team_slug =
  api_team clock upstream config team_slug league_slug.
Proof.
  intros Hteams Hpre Hslug Hleague Hne Hid.
  assert (Hfind : List.find (matches_slug team_slug) (teams config) = Some (key, info)).
  { rewrite Hteams. apply find_first.
    - by apply (Forall_not_true _ _ _ (matches_slug_spec team_slug)).
    - by apply matches_slug_spec. }
  assert (Hfind' : List.find (matches_slug_league team_slug league_slug) (teams config)
                   = Some (key, info)).
  { apply (find_refined (matches_slug team_slug)); [|done|].
    - intros item H. apply matches_slug_league_spec in H as [H _]. by apply matches_slug_spec.
    - by apply matches_slug_league_spec. }
  unfold api_team_no_league, api_team.
  rewrite api_team_no_league_loop_find, api_team_loop_find, Hfind, Hfind', Hid, Hleague.
  simpl. by destruct (String.eqb_spec league_slug "").
Qed.

(** X9. The endpoints share the cache.  After [api_team] has returned a
    payload, a call of [api_fixtures] for the same team that finds the entry
    of the key still younger than 3600 seconds sends no request and answers
    with the projection of the stored payload. *)
Theorem api_team_then_api_fixtures team_slug league_slug w payload w1 ts data :
  api_team clock upstream config team_slug league_slug w = (Return payload, w1) ->
  cache w1 !! cache_key (Some league_slug) (Some team_slug) = Some (ts, data) ->
  (clock (clock_reads w1) - ts < CACHE_EXPIRATION)%Q ->
  api_fixtures clock upstream config team_slug league_slug w1
    = (project_fixtures data, tick w1).
Proof.
  intros Hcall Hl Hage.
  apply api_team_returns in Hcall as (k & info & Hfind & Hid & Hsport & _).
  unfold api_fixtures. rewrite api_fixtures_loop_find, Hfind, Hid, Hsport. simpl.
  unfold mbind, M_bind, lift.
  apply fresh_lt in Hage. by rewrite (get_cached_hit _ _ _ _ _ _ _ _ _ Hl Hage).
Qed.

(** ** The rows of the bulk listing *)

Lemma project_row_shape info data row :
  project_row info data = Return row -> exists logo, row = summary_row info logo.
Proof.
  unfold project_row.
  destruct (py_get data _ _) as [team|e]; [|done].
  destruct (py_get team _ _) as [logos|e]; [|done].
  destruct (truthy logos).
  - destruct (py_index0 logos) as [first|e]; [|done].
    destruct (py_get first _ _) as [logo|e]; [|done].
    intros [= <-]. by exists logo.
  - intros [= <-]. by exists JNull.
Qed.

Lemma listing_picks items w :
  exists picks : list (team_info * value),
    (listing clock upstream config items w).1
      = map (fun p : team_info * value => summary_row p.1 p.2) picks /\
    map fst picks `sublist_of` map snd items.
Proof.
  revert w. induction items as [|[k info] rest IH]; intros w; simpl.
  - exists []. split; [done | constructor].
  - assert (Hrow : forall row, (attempt clock upstream config info w).1 = Some row ->
                               exists logo, row = summary_row info logo).
    { unfold attempt. destruct (truthy_str _); [|done].
      destruct (get_cached_team_data _ _ _ _ _ _ w) as [[payload|e] w1]; [|done]. simpl.
      destruct (project_row info payload) as [row'|e] eqn:Hp; [|done].
      intros row [= <-]. by apply project_row_shape in Hp. }
    destruct (attempt clock upstream config info w) as [o w1]. simpl in Hrow.
    destruct (IH w1) as (picks & Hrows & Hsub).
    destruct (listing clock upstream config rest w1) as [rows w2]. simpl in *.
    destruct o as [row|].
    + destruct (Hrow row eq_refl) as [logo ->].
      exists ((info, logo) :: picks). simpl. split; [by rewrite Hrows | by constructor].
    + exists picks. split; [done | by constructor].
Qed.

(** X10. The bulk listing raises nothing of its own, and what it hands to
    [JSONResponse] are rows of configured teams, in the order of the
    configuration and at most one per team: the result of [get_all_teams] is
    what [JSONResponse] makes (the list itself when it renders, the
    exception of the rendering otherwise) of the list of
    [summary_row info logo] for a list of pairs (info, logo) whose teams form
    a sublist of the configured teams; in particular name, league and slug of
    a row are those of the configuration, never those of the payload. *)
Theorem get_all_teams_rows_of_config w :
  exists (rows : list value) (w' : world) (picks : list (team_info * value)),
    get_all_teams clock upstream config renders w = (JSONResponse renders rows, w') /\
    rows = map (fun p : team_info * value => summary_row p.1 p.2) picks /\
    map fst picks `sublist_of` map snd (teams config) /\
    (length rows <= length (teams config))%nat.
Proof.
  destruct (listing_picks (teams config) w) as (picks & Hrows & Hsub).
  eexists _, _, picks. rewrite get_all_teams_run.
  split; [reflexivity |]. split; [done |]. split; [done |].
  rewrite Hrows, length_map. apply sublist_length in Hsub.
  by rewrite !length_map in Hsub.
Qed.

(** ** The exceptions that escape *)

Lemma get_cached_raises sport league team id w e :
  (get_cached_team_data clock upstream sport league team id w).1 = Raise e ->
  (exists d, e = HTTPException 500 d) \/
  (exists class_name,
      e = Other class_name /\
      library_failure upstream class_name w
        (get_cached_team_data clock upstream sport league team id w).2).
Proof.
  destruct (get_cached_cases clock upstream sport league team id w)
    as [[data ->] | [(payload & _ & ->) | [(msg & _ & ->) | (class_name & Hup & ->)]]];
    simpl; try done.
  - intros [= <-]. left. eauto.
  - intros [= <-]. right. exists class_name. split; [done |].
    by apply library_failure_refreshed.
Qed.

(** X11. The two team endpoints raise nothing but HTTP errors of status 404
    or 500 and, without a status, the exception of a library call of the
    fetch that is no [RequestException], when the fetch raised it.  The
    fixtures endpoint raises in addition [AttributeError], and only after
    the payload was obtained: then the payload is not an object, or its
    field [team] is not one. *)
Theorem escaping_exceptions team_slug league_slug w e :
  ((api_team clock upstream config team_slug league_slug w).1 = Raise e ->
   (exists d, e = HTTPException 404 d \/ e = HTTPException 500 d) \/
   (exists class_name,
       e = Other class_name /\
       library_failure upstream class_name w
         (api_team clock upstream config team_slug league_slug w).2)) /\
  ((api_team_no_league clock upstream config team_slug w).1 = Raise e ->
   (exists d, e = HTTPException 404 d \/ e = HTTPException 500 d) \/
   (exists class_name,
       e = Other class_name /\
       library_failure upstream class_name w
         (api_team_no_league clock upstream config team_slug w).2)) /\
  ((api_fixtures clock upstream config team_slug league_slug w).1 = Raise e ->
   (exists d, e = HTTPException 404 d \/ e = HTTPException 500 d) \/
   (exists class_name,
       e = Other class_name /\
       library_failure upstream class_name w
         (api_fixtures clock upstream config team_slug league_slug w).2) \/
   (e = AttributeError /\
    exists payload w',
      api_team clock upstream config team_slug league_slug w = (Return payload, w') /\
      project_fixtures payload = Raise AttributeError)).
Proof.
  split; [|split].
  - unfold api_team. rewrite api_team_loop_find.
    destruct (List.find _ _) as [[k info]|]; [|intros [= <-]; eauto].
    destruct (negb _); [intros [= <-]; eauto |].
    destruct (negb _); [intros [= <-]; eauto |].
    intros H. apply get_cached_raises in H as [[d ->] | H]; eauto.
  - unfold api_team_no_league. rewrite api_team_no_league_loop_find.
    destruct (List.find _ _) as [[k info]|]; [|intros [= <-]; eauto].
    destruct (_ || _); [intros [= <-]; eauto |].
    destruct (negb _); [intros [= <-]; eauto |].
    intros H. apply get_cached_raises in H as [[d ->] | H]; eauto.
  - unfold api_fixtures, api_team. rewrite api_fixtures_loop_find, api_team_loop_find.
    destruct (List.find _ _) as [[k info]|]; [|intros [= <-]; eauto].
    destruct (negb _); [intros [= <-]; eauto |].
    destruct (negb _); [intros [= <-]; eauto |].
    rewrite bind_lift_state. unfold mbind, M_bind, lift.
    pose proof (get_cached_raises (find_sport_slug config (Some league_slug))
                  (Some league_slug) (Some team_slug) (t_espn_id info) w) as Hraise.
    destruct (get_cached_team_data _ _ _ _ _ _ w) as [[payload|e'] w'] eqn:Hcall; simpl in *.
    + intros Hp. right. right. pose proof (project_fixtures_raises _ _ Hp) as ->. eauto.
    + intros [= <-]. destruct (Hraise e' eq_refl) as [[d ->] | H]; eauto.
Qed.

End Composition.

(** X12. The guard [if logos] keeps the subscript in range: building a row
    (the projection inside the [try] block of the bulk listing) never
    raises [IndexError], whatever the payload.  On a payload object whose
    [team] is an object, or is absent, the row is built: its logo is the
    [href] of the first element of [logos] when that is an object (null when
    it has no [href]), and null when [logos] is empty or absent. *)
Theorem project_row_never_out_of_range info data :
  project_row info data <> Raise IndexError /\
  (forall fields team_fields,
      data = JObj fields ->
      assoc "team" fields = Some (JObj team_fields) \/
      (assoc "team" fields = None /\ team_fields = []) ->
      (forall first rest,
          assoc "logos" team_fields = Some (JArr (JObj first :: rest)) ->
          project_row info data =
            Return (summary_row info
                      (match assoc "href" first with Some href => href | None => JNull end))) /\
      (assoc "logos" team_fields = None \/ assoc "logos" team_fields = Some (JArr []) ->
       project_row info data = Return (summary_row info JNull))).
Proof.
  split.
  - unfold project_row.
    destruct (py_get data _ _) as [team|e] eqn:H1.
    + destruct (py_get team _ _) as [logos|e] eqn:H2.
      * destruct logos as [|b|q|x|s|items|fields]; simpl; try done.
        -- by destruct b.
        -- by destruct (Qeq_bool q 0).
        -- destruct s; simpl; [done |]. done.
        -- destruct items as [|x items]; [done |]. simpl.
           destruct (py_get x _ _) as [logo|e] eqn:H3; [done |].
           apply py_get_raises in H3 as ->. done.
        -- by destruct fields.
      * apply py_get_raises in H2 as ->. done.
    + apply py_get_raises in H1 as ->. done.
  - intros fields team_fields ->. apply project_row_logo.
Qed.

(** ** Sport path and URL *)

(** X13. [find_sport_slug] invents nothing: a result is the sport path (then
    not empty) or the generic sport field of a configured league whose name
    is the requested one; and the entries that follow the first league of
    that name are never consulted, even when the first one has neither
    field. *)
Theorem find_sport_slug_sound config league_slug :
  (forall s,
      find_sport_slug config league_slug = Some s ->
      exists l,
        In l (leagues config) /\ l_league l = league_slug /\
        ((l_sport_path l = Some s /\ s <> "") \/ l_sport l = Some s)) /\
  (forall pre l post,
      leagues config = (pre ++ l :: post)%list ->
      Forall (fun l' => l_league l' <> league_slug) pre ->
      l_league l = league_slug ->
      find_sport_slug config league_slug
        = find_sport_slug {| leagues := [l]; teams := teams config |} league_slug).
Proof.
  unfold find_sport_slug. split.
  - intros s. induction (leagues config) as [|l ls IH]; simpl; [done |].
    destruct (bool_decide_reflect (l_league l = league_slug)) as [Hl | Hl].
    + unfold py_or. destruct (l_sport_path l) as [p|] eqn:Hp; simpl.
      * destruct (String.eqb_spec p ""); simpl.
        -- intros Hs. exists l. auto.
        -- intros [= <-]. exists l. split; [by left |]. split; [done |]. by left.
      * intros Hs. exists l. auto.
    + intros Hs. destruct (IH Hs) as (l' & Hin & Hrest). exists l'. split; [by right | done].
  - intros pre l post Hls Hpre Hl. simpl.
    rewrite Hls, (find_sport_slug_in_first _ _ _ _ Hpre Hl).
    by rewrite bool_decide_eq_true_2.
Qed.

Lemma to_int_not_nil (z : Z) :
  Z.to_int z <> Decimal.Pos Decimal.Nil /\ Z.to_int z <> Decimal.Neg Decimal.Nil.
Proof.
  rewrite <- (DecimalZ.of_to z) at 1 2. rewrite DecimalZ.to_of.
  split; intros Hz.
  - pose proof (DecimalFacts.unorm_nonnil (match Z.to_int z with
      | Decimal.Pos u | Decimal.Neg u => u end)) as Hu.
    destruct (Z.to_int z) as [u|u]; simpl in Hz.
    + injection Hz as Hz. by apply Hu in Hz.
    + destruct (Decimal.nzhead u); discriminate Hz.
  - destruct (Z.to_int z) as [u|u]; simpl in Hz; [discriminate Hz |].
    destruct (Decimal.nzhead u); discriminate Hz.
Qed.

Lemma fmt_int_parses (z : Z) :
  NilZero.int_of_string (fmt_int (Some z)) = Some (Z.to_int z).
Proof. destruct (to_int_not_nil z). by apply NilZero.isi. Qed.

Lemma fmt_int_injective (a b : Z) : fmt_int (Some a) = fmt_int (Some b) -> a = b.
Proof.
  intros H. apply (f_equal NilZero.int_of_string) in H.
  rewrite !fmt_int_parses in H.
  injection H as H. apply (f_equal Z.of_int) in H. by rewrite !DecimalZ.of_to in H.
Qed.

(** X14. The URL of a fetch tells the provider id: for the same sport path
    and league, two different ids give two different URLs, and the URL of an
    absent id (it ends in /teams/None) is the URL of no id. *)
Theorem fetch_url_tells_id sport league (a b : Z) :
  (a <> b -> fetch_url sport league (Some a) <> fetch_url sport league (Some b)) /\
  fetch_url sport league None <> fetch_url sport league (Some a).
Proof.
  unfold fetch_url. split.
  - intros Hne H. apply Hne.
    do 5 apply String.app_inj in H. by apply fmt_int_injective.
  - intros H. do 5 apply String.app_inj in H.
    apply (f_equal NilZero.int_of_string) in H.
    rewrite fmt_int_parses in H. done.
Qed.

Section Listing.

Variable clock : nat -> Q.
Variable upstream : nat -> string -> response.
Variable config : config_table.
Variable renders : list value -> option string.

Lemma listing_cons (c : config_table) key info rest w :
  listing clock upstream c ((key, info) :: rest) w =
  let '(o, w1) := attempt clock upstream c info w in
  let '(rows, w2) := listing clock upstream c rest w1 in
  (match o with Some row => row :: rows | None => rows end, w2).
Proof. reflexivity. Qed.

Lemma listing_leagues (c1 c2 : config_table) items w :
  leagues c1 = leagues c2 ->
  listing clock upstream c1 items w = listing clock upstream c2 items w.
Proof.
  intros Hl. revert w. induction items as [|[k info] rest IH]; intros w; [done |].
  rewrite !listing_cons.
  assert (Hatt : attempt clock upstream c1 info w = attempt clock upstream c2 info w).
  { unfold attempt, find_sport_slug. by rewrite Hl. }
  rewrite Hatt. destruct (attempt clock upstream c2 info w) as [o w1]. by rewrite IH.
Qed.

Lemma listing_skips_unresolved items w :
  listing clock upstream config
    (filter (fun item : string * team_info =>
               truthy_str (find_sport_slug config (t_league item.2)) = true) items) w
  = listing clock upstream config items w.
Proof.
  revert w. induction items as [|[k info] rest IH]; intros w; [done |].
  rewrite filter_cons. simpl. case_decide as Hsport; simpl.
  - destruct (attempt clock upstream config info w) as [o w1]. by rewrite IH.
  - unfold attempt. apply not_true_is_false in Hsport. rewrite Hsport. rewrite IH.
    by destruct (listing clock upstream config rest w).
Qed.

(** X15. A team whose sport path does not resolve is invisible to the bulk
    listing: [get_all_teams] gives the same rows and leaves the same state
    (no clock reading, no request, no entry for it) as on the configuration
    from which such teams are removed. *)
Theorem get_all_teams_skips_unresolved w :
  get_all_teams clock upstream config renders w =
  get_all_teams clock upstream
    {| leagues := leagues config;
       teams := filter (fun item : string * team_info =>
                          truthy_str (find_sport_slug config (t_league item.2)) = true)
                  (teams config) |} renders w.
Proof.
  rewrite !get_all_teams_run. simpl.
  rewrite (listing_leagues {| leagues := leagues config; teams := _ |} config) by done.
  by rewrite listing_skips_unresolved.
Qed.

End Listing.

(** ** Slots of other keys *)

Section Slots.

Variable clock : nat -> Q.
Variable upstream : nat -> string -> response.
Variable config : config_table.
Variable renders : list value -> option string.

Lemma attempt_other_slot info w key :
  cache_key (t_league info) (t_espn_slug info) <> key ->
  cache (attempt clock upstream config info w).2 !! key = cache w !! key.
Proof.
  intros Hne. unfold attempt. destruct (truthy_str _); [|done].
  pose proof (get_cached_other_slot clock upstream (find_sport_slug config (t_league info))
                (t_league info) (t_espn_slug info) (t_espn_id info) w key Hne) as H.
  by destruct (get_cached_team_data _ _ _ _ _ _ w) as [[payload|e] w'].
Qed.

Lemma listing_other_slot items w key :
  Forall (fun item : string * team_info =>
            cache_key (t_league item.2) (t_espn_slug item.2) <> key) items ->
  cache (listing clock upstream config items w).2 !! key = cache w !! key.
Proof.
  intros Hall. revert w. induction Hall as [|[k info] rest Hne _ IH]; intros w; simpl; [done |].
  pose proof (attempt_other_slot info w key Hne) as Hatt.
  destruct (attempt clock upstream config info w) as [o w1]. simpl in Hatt.
  specialize (IH w1). destruct (listing clock upstream config rest w1) as [rows w2].
  simpl in *. by rewrite IH.
Qed.

(** X16. A request for one team leaves the cached data of every other key
    alone: [api_team] and [api_fixtures] change no slot but the one of the
    key of their arguments, and no handler changes the slot of a key that is
    the key of no configured team. *)
Theorem other_slots_untouched team_slug league_slug w key :
  (cache_key (Some league_slug) (Some team_slug) <> key ->
   cache (api_team clock upstream config team_slug league_slug w).2 !! key = cache w !! key /\
   cache (api_fixtures clock upstream config team_slug league_slug w).2 !! key
     = cache w !! key) /\
  (Forall (fun item : string * team_info =>
             cache_key (t_league item.2) (t_espn_slug item.2) <> key) (teams config) ->
   cache (api_team_no_league clock upstream config team_slug w).2 !! key = cache w !! key /\
   cache (get_all_teams clock upstream config renders w).2 !! key = cache w !! key).
Proof.
  split.
  - intros Hne. split.
    + unfold api_team. rewrite api_team_loop_find.
      destruct (List.find _ _) as [[k info]|]; [|done].
      destruct (negb _); [done |]. destruct (negb _); [done |].
      by apply get_cached_other_slot.
    + unfold api_fixtures. rewrite api_fixtures_loop_find.
      destruct (List.find _ _) as [[k info]|]; [|done].
      destruct (negb _); [done |]. destruct (negb _); [done |].
      rewrite bind_lift_state. by apply get_cached_other_slot.
  - intros Hall. split.
    + unfold api_team_no_league. rewrite api_team_no_league_loop_find.
      destruct (List.find _ _) as [[k info]|] eqn:Hfind; [|done].
      destruct (_ || _); [done |]. destruct (negb _); [done |].
      apply find_some in Hfind as [Hin Hm].
      apply matches_slug_spec in Hm. simpl in Hm.
      apply get_cached_other_slot. rewrite <- Hm.
      rewrite Forall_forall in Hall. apply (Hall (k, info)). by apply list_elem_of_In.
    + rewrite get_all_teams_run. simpl.
      by apply listing_other_slot.
Qed.

End Slots.

(** * The further properties on concrete inputs *)

Lemma w_empty_sound : cache_sound ex_clock ex_upstream w_empty.
Proof. intros key ts data Hl. simpl in Hl. by rewrite lookup_empty in Hl. Defined.

Lemma cache_sound_invariant_witness :
  cache_sound ex_clock ex_upstream (get_all_teams ex_clock ex_upstream cfg_three json_renders w_empty).2.
Proof.
  apply (cache_sound_invariant ex_clock ex_upstream cfg_three json_renders "ars" "eng.1"
           w_empty w_empty_sound).
Defined.

Lemma returned_payload_is_cached_witness :
  exists ts,
    cache (api_team ex_clock ex_upstream cfg_three "ars" "eng.1" w_stale).2 !! "eng.1:ars"
      = Some (ts, ex_payload "ars.png") /\
    (ex_clock 0 - ts < CACHE_EXPIRATION)%Q.
Proof.
  destruct (returned_payload_is_cached ex_clock ex_upstream cfg_three "ars" "eng.1" w_stale
              (ex_payload "ars.png")
              (api_team ex_clock ex_upstream cfg_three "ars" "eng.1" w_stale).2)
    as (_ & H & _).
  apply H. vm_compute. reflexivity.
Defined.

Lemma fetch_then_hit_witness :
  get_cached_team_data ex_clock ex_upstream (Some "football") (Some "eng.1") (Some "ars") None
    (get_cached_team_data ex_clock ex_upstream (Some "soccer") (Some "eng.1") (Some "ars")
       (Some 359%Z) w_stale).2
  = (Return (ex_payload "ars.png"),
     tick (get_cached_team_data ex_clock ex_upstream (Some "soccer") (Some "eng.1")
             (Some "ars") (Some 359%Z) w_stale).2).
Proof.
  apply (fetch_then_hit ex_clock ex_upstream (Some "soccer") (Some "eng.1") (Some "ars")
           (Some 359%Z) w_stale (ex_payload "ars.png") (Some "football") None).
  - exact w_stale_is_stale.
  - reflexivity.
  - vm_compute. reflexivity.
Defined.

Lemma failure_then_retry_witness :
  requests
    (get_cached_team_data ex_clock upstream_down (Some "soccer") (Some "eng.1") (Some "ars")
       (Some 359%Z)
       (get_cached_team_data ex_clock upstream_down (Some "soccer") (Some "eng.1")
          (Some "ars") (Some 359%Z) w_stale).2).2
  = [ars_url; ars_url].
Proof.
  apply (proj1 (failure_then_retry ex_clock upstream_down (Some "soccer") (Some "eng.1")
                  (Some "ars") (Some 359%Z) w_stale "timed out"
                  w_stale_is_stale eq_refl ltac:(vm_compute; discriminate))).
Defined.

Lemma api_team_no_league_is_api_team_witness :
  api_team_no_league ex_clock ex_upstream cfg_collision "ne" =
  api_team ex_clock ex_upstream cfg_collision "ne" "eng.1".
Proof.
  apply (api_team_no_league_is_api_team ex_clock ex_upstream cfg_collision
           [("arsenal", arsenal)] "newcastle" newcastle [("patriots", patriots)] "ne" "eng.1").
  - reflexivity.
  - repeat constructor. discriminate.
  - reflexivity.
  - reflexivity.
  - discriminate.
  - reflexivity.
Defined.

Lemma api_team_then_api_fixtures_witness :
  api_fixtures ex_clock ex_upstream cfg_three "ars" "eng.1"
    (api_team ex_clock ex_upstream cfg_three "ars" "eng.1" w_empty).2
  = (Return (JObj [("fixtures", JArr [JObj [("id", JStr "401")]])]),
     tick (api_team ex_clock ex_upstream cfg_three "ars" "eng.1" w_empty).2).
Proof.
  apply (api_team_then_api_fixtures ex_clock ex_upstream cfg_three "ars" "eng.1" w_empty
           (ex_payload "ars.png")
           (api_team ex_clock ex_upstream cfg_three "ars" "eng.1" w_empty).2
           5000%Q (ex_payload "ars.png"));
    vm_compute; reflexivity.
Defined.

Lemma escaping_exceptions_witness :
  (exists d,
      Other "RecursionError" = HTTPException 404 d \/
      Other "RecursionError" = HTTPException 500 d) \/
  (exists class_name,
      Other "RecursionError" = Other class_name /\
      library_failure upstream_deep class_name w_empty
        (api_team ex_clock upstream_deep cfg_three "ars" "eng.1" w_empty).2).
Proof.
  apply (proj1 (escaping_exceptions ex_clock upstream_deep cfg_three "ars" "eng.1" w_empty
                  (Other "RecursionError"))).
  vm_compute. reflexivity.
Defined.

Lemma project_row_never_out_of_range_witness :
  project_row arsenal (ex_payload "ars.png") = Return (summary_row arsenal (JStr "ars.png")).
Proof.
  destruct (project_row_never_out_of_range arsenal (ex_payload "ars.png")) as [_ H].
  destruct (H [("team", JObj [("logos", JArr [JObj [("href", JStr "ars.png")]]);
                              ("nextEvent", JArr [JObj [("id", JStr "401")]])])]
              [("logos", JArr [JObj [("href", JStr "ars.png")]]);
               ("nextEvent", JArr [JObj [("id", JStr "401")]])]
              eq_refl (or_introl eq_refl)) as [Hfirst _].
  apply (Hfirst [("href", JStr "ars.png")] []). reflexivity.
Defined.

Lemma find_sport_slug_sound_witness :
  exists l,
    In l (leagues cfg_three) /\ l_league l = Some "nfl" /\
    ((l_sport_path l = Some "football" /\ "football" <> "") \/ l_sport l = Some "football").
Proof.
  apply (proj1 (find_sport_slug_sound cfg_three (Some "nfl")) "football"). reflexivity.
Defined.

Lemma fetch_url_tells_id_witness :
  fetch_url (Some "soccer") (Some "eng.1") (Some 359%Z)
    <> fetch_url (Some "soccer") (Some "eng.1") (Some 361%Z).
Proof.
  apply (proj1 (fetch_url_tells_id (Some "soccer") (Some "eng.1") 359 361)). discriminate.
Defined.

Lemma other_slots_untouched_witness :
  cache (api_team ex_clock ex_upstream cfg_three "ne" "nfl" w_fresh).2 !! "eng.1:ars"
    = cache w_fresh !! "eng.1:ars".
Proof.
  apply (proj1 (other_slots_untouched ex_clock ex_upstream cfg_three json_renders "ne" "nfl"
                  w_fresh "eng.1:ars")).
  discriminate.
Defined.
